(** * Landing page scripts: A/B testing, analytics and lead form

  A shallow embedding of the parts of [ab-testing.js], [analytics.js] and
  the form handler script that the specification talks about, followed by
  the properties established about them.

  JavaScript strings are [string]s, objects used as dictionaries are
  insertion-ordered association lists (the order of [Object.keys]) or
  [gmap]s where the order is never observed, and everything the scripts
  reach through a browser API ([localStorage], the query string,
  [Math.random], the element tree, the analytics collectors, the console)
  is a field of an explicit state that the embedded methods thread. *)

From Stdlib Require Import Ascii String ZArith NArith Lia Bool.
From stdpp Require Import gmap strings list fin_maps pretty.

Open Scope string_scope.
Open Scope list_scope.

(* ===================================================================== *)
(** * Definitions *)
(* ===================================================================== *)

(** ** JavaScript values and string primitives *)

Module Js.

(** [String.prototype.substring(a, b)]: both ends are clamped to the
    length of the string and swapped when [a > b]. *)
Definition substring (s : string) (a b : nat) : string :=
  if (a <=? b)%nat then String.substring a (b - a) s
  else String.substring b (a - b) s.

(** [String.prototype.substring(a)]: from [a] to the end. *)
Definition substring_from (s : string) (a : nat) : string :=
  String.substring a (String.length s - a) s.

(** The character class [\d] of a regular expression without the unicode
    flag: the ten ASCII digits. *)
Definition is_digit (c : ascii) : bool :=
  let n := nat_of_ascii c in (48 <=? n)%nat && (n <=? 57)%nat.

(** [s.replace(/\D/g, '')]: every character that is not a digit is
    dropped. *)
Fixpoint strip_non_digits (s : string) : string :=
  match s with
  | EmptyString => EmptyString
  | String c rest =>
      if is_digit c then String c (strip_non_digits rest)
      else strip_non_digits rest
  end.

(** The values a variant slot, a storage read or an event property can
    hold. Numbers are the integers the scripts pass around. *)
Inductive value :=
| Undefined
| Null
| Str (s : string)
| Num (z : Z).

#[global] Instance value_eq_dec : EqDecision value.
Proof. solve_decision. Defined.

(** Truthiness ([ToBoolean]) of such a value: the empty string is falsy,
    like [null] and [undefined]. *)
Definition truthy (v : value) : bool :=
  match v with
  | Str EmptyString => false
  | Str _ => true
  | Num z => negb (z =? 0)%Z
  | _ => false
  end.

(** [ToString], as applied by [localStorage.setItem] and by template
    literals. *)
Definition to_string (v : value) : string :=
  match v with
  | Undefined => "undefined"
  | Null => "null"
  | Str s => s
  | Num z => pretty z
  end.

(** [Array.prototype.includes] on an array of strings (SameValueZero is
    plain equality on strings; [null] and [undefined] equal no string). *)
Definition includes (arr : list string) (v : value) : bool :=
  match v with
  | Str s => existsb (String.eqb s) arr
  | _ => false
  end.

End Js.

(** ** The browser services shared by the scripts *)

Module Browser.

(** An external analytics collector ([window.gtag], [window.fbq]): not
    loaded, loaded and working, or loaded and throwing on every call. *)
Inductive collector :=
| Absent
| Accepts
| Throws.

(** The calls the scripts make to the collectors and to the console, and
    the writes they make to [localStorage], in the order they are made. *)
Inductive call :=
| Gtag (command name : string) (params : list (string * Js.value))
| Fbq (command name : string) (params : list (string * Js.value))
| ConsoleLog (msg : string)
| ConsoleError (msg : string)
| StorageSet (key value : string).

#[global] Instance call_eq_dec : EqDecision call.
Proof. solve_decision. Defined.

(** [if (window.c) { try { c(...) } catch (e) { console.error(err, e) } }]:
    the calls this adds to the record. *)
Definition guarded (c : collector) (the_call : call) (err : string)
  : list call :=
  match c with
  | Absent => []
  | Accepts => [the_call]
  | Throws => [the_call; ConsoleError err]
  end.

(** How often the call [c] occurs in a record. *)
Definition times (c : call) (l : list call) : nat :=
  length (filter (λ x, x = c) l).

End Browser.

(** ** The element tree *)

Module Dom.

(** What the scripts read and write of an element: its tag, its
    attributes other than [class] and [style], the tokens of its
    [classList] and the declarations of its inline [style]. *)
Record element_data := {
  tag : string;
  attrs : gmap string string;
  classList : list string;
  style : gmap string string
}.

#[local] Set Warnings "-register-all".

Inductive node :=
| Text (s : string)
| Element (d : element_data) (children : list node).

(** [e.setAttribute(name, value)]. *)
Definition setAttribute (name value : string) (d : element_data)
  : element_data :=
  {| tag := tag d; attrs := <[name := value]> (attrs d);
     classList := classList d; style := style d |}.

(** [e.classList.remove(token)]. *)
Definition classList_remove (token : string) (d : element_data)
  : element_data :=
  {| tag := tag d; attrs := attrs d;
     classList := filter (λ c, c ≠ token) (classList d);
     style := style d |}.

(** [e.classList.add(token)]: a token already present is not added
    again. *)
Definition classList_add (token : string) (d : element_data)
  : element_data :=
  {| tag := tag d; attrs := attrs d;
     classList := if bool_decide (token ∈ classList d) then classList d
                  else classList d ++ [token];
     style := style d |}.

(** [e.style.prop = value]: the empty string removes the declaration. *)
Definition style_set (prop value : string) (d : element_data)
  : element_data :=
  {| tag := tag d; attrs := attrs d; classList := classList d;
     style := if bool_decide (value = "") then delete prop (style d)
              else <[prop := value]> (style d) |}.

(** The tokens of a class list after [classList.remove(off)] followed by
    [classList.add(on)]. *)
Definition token_swap (off on : string) (l : list string) : list string :=
  if bool_decide (on ∈ filter (λ c, c ≠ off) l)
  then filter (λ c, c ≠ off) l
  else filter (λ c, c ≠ off) l ++ [on].

(** The selectors the scripts use: [#id], [.class] and [[attr]]. *)
Definition has_id (id : string) (d : element_data) : bool :=
  bool_decide (attrs d !! "id" = Some id).

Definition has_class (token : string) (d : element_data) : bool :=
  bool_decide (token ∈ classList d).

Definition has_attr (name : string) (d : element_data) : bool :=
  bool_decide (is_Some (attrs d !! name)).

(** A lookup of the first element, in tree order, that satisfies [p]
    ([getElementById], [querySelector]) followed by mutations through the
    returned reference: one traversal that rebuilds the tree with that
    element replaced by [f] of it, and [None] when the lookup returns
    [null]. *)
Fixpoint update_first (p : element_data -> bool)
    (f : element_data -> list node -> node) (n : node) : option node :=
  match n with
  | Text _ => None
  | Element d kids =>
      if p d then Some (f d kids)
      else
        option_map (Element d)
          ((fix go (l : list node) : option (list node) :=
              match l with
              | [] => None
              | k :: ks =>
                  match update_first p f k with
                  | Some k' => Some (k' :: ks)
                  | None => option_map (cons k) (go ks)
                  end
              end) kids)
  end.

(** The same over a list of siblings: the children of an element for
    [e.querySelector], the content of the page for a lookup on
    [document]. *)
Fixpoint update_first_in (p : element_data -> bool)
    (f : element_data -> list node -> node) (l : list node)
  : option (list node) :=
  match l with
  | [] => None
  | k :: ks =>
      match update_first p f k with
      | Some k' => Some (k' :: ks)
      | None => option_map (cons k) (update_first_in p f ks)
      end
  end.

(** [querySelectorAll(sel).forEach(...)] where the callback only writes
    the attributes, classes and style of the element it is given: every
    element that satisfies [p] has its data replaced by [g] of it. *)
Fixpoint update_all (p : element_data -> bool)
    (g : element_data -> element_data) (n : node) : node :=
  match n with
  | Text s => Text s
  | Element d kids =>
      Element (if p d then g d else d) (map (update_all p g) kids)
  end.

(** The number of elements of a tree that satisfy [p]. *)
Fixpoint count (p : element_data -> bool) (n : node) : nat :=
  match n with
  | Text _ => 0
  | Element d kids =>
      (if p d then 1 else 0) + list_sum (map (count p) kids)
  end.

Definition count_in (p : element_data -> bool) (l : list node) : nat :=
  list_sum (map (count p) l).

(** Whether a node is an element that satisfies [p]. *)
Definition matches (p : element_data -> bool) (n : node) : bool :=
  match n with
  | Text _ => false
  | Element d _ => p d
  end.

(** [document.querySelector(sel)] followed by [.remove()] on the result:
    the first element that satisfies [p] is taken out with its subtree.
    [remove_first p n] looks below [n]. *)
Fixpoint remove_first (p : element_data -> bool) (n : node) : option node :=
  match n with
  | Text _ => None
  | Element d kids =>
      option_map (Element d)
        ((fix go (l : list node) : option (list node) :=
            match l with
            | [] => None
            | k :: ks =>
                if matches p k then Some ks
                else
                  match remove_first p k with
                  | Some k' => Some (k' :: ks)
                  | None => option_map (cons k) (go ks)
                  end
            end) kids)
  end.

Fixpoint remove_first_in (p : element_data -> bool) (l : list node)
  : option (list node) :=
  match l with
  | [] => None
  | k :: ks =>
      if matches p k then Some ks
      else
        match remove_first p k with
        | Some k' => Some (k' :: ks)
        | None => option_map (cons k) (remove_first_in p ks)
        end
  end.

(** Induction over a tree, with the property available for every
    child. *)
Fixpoint node_ind' (P : node -> Prop)
    (HText : forall s, P (Text s))
    (HElement : forall d kids, Forall P kids -> P (Element d kids))
    (n : node) : P n :=
  match n with
  | Text s => HText s
  | Element d kids =>
      HElement d kids
        ((fix go (l : list node) : Forall P l :=
            match l with
            | [] => @List.Forall_nil node P
            | k :: ks =>
                @List.Forall_cons node P k ks
                  (node_ind' P HText HElement k) (go ks)
            end) kids)
  end.

End Dom.

(** ** A/B testing *)

Module ABTesting.

Import Browser Dom.

(** *** Configuration *)

Record config := {
  tests : list (string * list string);
  cookieExpiryDays : Z;
  localStoragePrefix : string;
  analyticsEnabled : bool
}.

Definition AB_TEST_CONFIG : config := {|
  tests := [ ("hero_headline", ["A"; "B"]);
             ("why_now_text", ["A"; "B"]);
             ("cta_button_color", ["blue"; "yellow"]) ];
  cookieExpiryDays := 30;
  localStoragePrefix := "ab_test_";
  analyticsEnabled := true
|}.

(** Objects used as dictionaries: the own properties in the order of
    [Object.keys]. [obj_set] is [o[k] = v]: an existing property keeps its
    place, a new one goes last. Property names are ordinary names: the
    accessor [__proto__] is not a key of these objects. *)
Fixpoint obj_get {A} (k : string) (o : list (string * A)) : option A :=
  match o with
  | [] => None
  | (k', v) :: rest => if String.eqb k k' then Some v else obj_get k rest
  end.

Fixpoint obj_set {A} (k : string) (v : A) (o : list (string * A))
  : list (string * A) :=
  match o with
  | [] => [(k, v)]
  | (k', v') :: rest =>
      if String.eqb k k' then (k', v) :: rest
      else (k', v') :: obj_set k v rest
  end.

Definition keys {A} (o : list (string * A)) : list string := map fst o.

(** The property names every object inherits from [Object.prototype]. *)
Definition object_prototype_names : list string :=
  [ "constructor"; "hasOwnProperty"; "isPrototypeOf";
    "propertyIsEnumerable"; "toLocaleString"; "toString"; "valueOf";
    "__proto__"; "__defineGetter__"; "__defineSetter__";
    "__lookupGetter__"; "__lookupSetter__" ].

(** What [this.config.tests[testName]] evaluates to: the array of an own
    property, a member of [Object.prototype] (truthy, and without an
    [includes] method), or [undefined]. *)
Inductive tests_entry :=
| Variants (allowed : list string)
| Inherited
| Missing.

Definition tests_lookup (c : config) (testName : string) : tests_entry :=
  match obj_get testName (tests c) with
  | Some allowed => Variants allowed
  | None =>
      if existsb (String.eqb testName) object_prototype_names
      then Inherited else Missing
  end.

(** *** The state the methods run in *)

(** The two things [initialize] does with a resolved variant, in the
    order it does them: applying it to the page and reporting its
    impression. *)
Inductive step :=
| Applied (testName : string) (variant : Js.value)
| Reported (testName : string) (variant : Js.value).

(** [localStorage]: its items, and whether reading or writing it throws
    (storage disabled, private browsing, quota exceeded). *)
Record storage := {
  items : gmap string string;
  getItem_throws : bool;
  setItem_throws : bool
}.

Record state := {
  localStorage : storage;
  (** the name/value pairs of [window.location.search] *)
  search : list (string * string);
  (** the successive results of [Math.random()], as numerators over
      [2^53], and the number of results consumed *)
  random : nat -> N;
  draws : nat;
  (** the content of the page *)
  document : list node;
  gtag : collector;
  fbq : collector;
  (** the collector, console and storage-write calls made so far *)
  calls : list call;
  (** the applications and reports made so far, oldest first: a record
      kept for the statements about their order (the script keeps none) *)
  steps : list step;
  (** [this.variants] of the instance *)
  variants : list (string * Js.value);
  (** whether [window.abTesting] has been assigned *)
  abTesting : bool
}.

Definition with_localStorage (st : storage) (s : state) : state :=
  {| localStorage := st; search := search s; random := random s;
     draws := draws s; document := document s; gtag := gtag s;
     fbq := fbq s; calls := calls s; steps := steps s;
     variants := variants s;
     abTesting := abTesting s |}.

Definition with_draws (n : nat) (s : state) : state :=
  {| localStorage := localStorage s; search := search s; random := random s;
     draws := n; document := document s; gtag := gtag s;
     fbq := fbq s; calls := calls s; steps := steps s;
     variants := variants s;
     abTesting := abTesting s |}.

Definition with_document (doc : list node) (s : state) : state :=
  {| localStorage := localStorage s; search := search s; random := random s;
     draws := draws s; document := doc; gtag := gtag s;
     fbq := fbq s; calls := calls s; steps := steps s;
     variants := variants s;
     abTesting := abTesting s |}.

Definition with_calls (l : list call) (s : state) : state :=
  {| localStorage := localStorage s; search := search s; random := random s;
     draws := draws s; document := document s; gtag := gtag s;
     fbq := fbq s; calls := l; steps := steps s;
     variants := variants s;
     abTesting := abTesting s |}.

Definition with_variants (v : list (string * Js.value)) (s : state) : state :=
  {| localStorage := localStorage s; search := search s; random := random s;
     draws := draws s; document := document s; gtag := gtag s;
     fbq := fbq s; calls := calls s; steps := steps s;
     variants := v;
     abTesting := abTesting s |}.

Definition with_steps (l : list step) (s : state) : state :=
  {| localStorage := localStorage s; search := search s; random := random s;
     draws := draws s; document := document s; gtag := gtag s;
     fbq := fbq s; calls := calls s; steps := l;
     variants := variants s; abTesting := abTesting s |}.

Definition with_abTesting (b : bool) (s : state) : state :=
  {| localStorage := localStorage s; search := search s; random := random s;
     draws := draws s; document := document s; gtag := gtag s;
     fbq := fbq s; calls := calls s; steps := steps s;
     variants := variants s;
     abTesting := b |}.

(** *** Computations that may throw *)

Inductive exn :=
| StorageError
| TypeError.

Inductive outcome (A : Type) :=
| Return (a : A) (s : state)
| Throw (e : exn) (s : state).

Arguments Return {A} a s.
Arguments Throw {A} e s.

Definition M (A : Type) : Type := state -> outcome A.

Definition ret {A} (a : A) : M A := fun s => Return a s.

Definition throw {A} (e : exn) : M A := fun s => Throw e s.

Definition bind {A B} (m : M A) (k : A -> M B) : M B :=
  fun s =>
    match m s with
    | Return a s' => k a s'
    | Throw e s' => Throw e s'
    end.

Notation "x <- m ;; k" := (bind m (fun x => k))
  (at level 62, m at next level, right associativity).
Notation "m ;;; k" := (bind m (fun _ => k))
  (at level 62, right associativity).

Definition get_state : M state := fun s => Return s s.

Definition modify (f : state -> state) : M unit := fun s => Return tt (f s).

(** [list.forEach(f)]. *)
Fixpoint forEach {A} (f : A -> M unit) (l : list A) : M unit :=
  match l with
  | [] => ret tt
  | x :: rest => f x ;;; forEach f rest
  end.

(** *** Browser services *)

(** [localStorage.getItem(key)]. *)
Definition getItem (key : string) : M Js.value :=
  fun s =>
    if getItem_throws (localStorage s) then Throw StorageError s
    else Return (match items (localStorage s) !! key with
                 | Some v => Js.Str v
                 | None => Js.Null
                 end) s.

(** [localStorage.setItem(key, value)]: the value is stored as a
    string. *)
Definition setItem (key : string) (value : Js.value) : M unit :=
  fun s =>
    if setItem_throws (localStorage s) then Throw StorageError s
    else
      Return tt
        (with_calls (calls s ++ [StorageSet key (Js.to_string value)])
           (with_localStorage
              {| items := <[key := Js.to_string value]>
                            (items (localStorage s));
                 getItem_throws := getItem_throws (localStorage s);
                 setItem_throws := setItem_throws (localStorage s) |} s)).

(** [urlParams.has(name)] and [urlParams.get(name)]. *)
Definition params_has (name : string) (params : list (string * string))
  : bool :=
  existsb (fun kv => String.eqb name (fst kv)) params.

Definition params_get (name : string) (params : list (string * string))
  : Js.value :=
  match obj_get name params with
  | Some v => Js.Str v
  | None => Js.Null
  end.

(** [Math.random()]: a double in [[0, 1)] with 53 random bits, held as
    its numerator over [2^53]. *)
Definition math_random : M N :=
  fun s =>
    Return (random s (draws s) mod 2 ^ 53)%N
           (with_draws (S (draws s)) s).

(** The double nearest to [m / 2^53], scaled by [2^53]: what the double
    multiplication of [k / 2^53] by an integer [n] returns for
    [m = k * n]. A product below [2^53] has at most 53 significant bits
    and is exact; a larger one is rounded to 53 significant bits, a tie
    going to the even significand. *)
Definition round_double (m : N) : N :=
  if (m <? 2 ^ 53)%N then m
  else
    let shift := (N.log2 m - 52)%N in
    let q := (m / 2 ^ shift)%N in
    let rem := (m mod 2 ^ shift)%N in
    let half := (2 ^ (shift - 1))%N in
    if (half <? rem)%N || ((rem =? half)%N && N.odd q)
    then ((q + 1) * 2 ^ shift)%N
    else (q * 2 ^ shift)%N.

(** [Math.floor(r * length)] for [r] of numerator [r] over [2^53]. *)
Definition floor_mul (r : N) (length : nat) : nat :=
  N.to_nat (round_double (r * N.of_nat length) / 2 ^ 53)%N.

(** [array[index]]. *)
Definition array_get (arr : list string) (index : nat) : Js.value :=
  match arr !! index with
  | Some x => Js.Str x
  | None => Js.Undefined
  end.

(** *** Variant assignment *)

(** [this.variants[testName] = variant]. *)
Definition set_variant (testName : string) (variant : Js.value) : M unit :=
  modify (fun s => with_variants (obj_set testName variant (variants s)) s).

(** [this.config.tests[testName].includes(v)]. Reading [includes] of
    [undefined], or calling the [includes] that a member of
    [Object.prototype] does not have, throws a [TypeError]. *)
Definition tests_includes (c : config) (testName : string) (v : Js.value)
  : M bool :=
  match tests_lookup c testName with
  | Variants allowed => ret (Js.includes allowed v)
  | _ => throw TypeError
  end.

(** [assignVariant(testName)]. [initialize] calls it on the keys of
    [config.tests] only; for any other name the embedding throws where the
    script reads a property of [undefined]. *)
Definition assignVariant (c : config) (testName : string) : M unit :=
  let key := localStoragePrefix c +:+ testName in
  storedVariant <- getItem key ;;
  stored_ok <- (if Js.truthy storedVariant
                then tests_includes c testName storedVariant
                else ret false) ;;
  if stored_ok then set_variant testName storedVariant
  else
    s <- get_state ;;
    let urlParams := search s in
    let param := "ab_" +:+ testName in
    param_ok <- (if params_has param urlParams
                 then tests_includes c testName (params_get param urlParams)
                 else ret false) ;;
    if param_ok then
      set_variant testName (params_get param urlParams) ;;;
      setItem key (params_get param urlParams)
    else
      match tests_lookup c testName with
      | Variants allowed =>
          r <- math_random ;;
          let randomIndex := floor_mul r (length allowed) in
          let selectedVariant := array_get allowed randomIndex in
          set_variant testName selectedVariant ;;;
          setItem key selectedVariant
      | _ => throw TypeError
      end.

(** Where a resolved variant comes from, in the order [assignVariant]
    tries the sources. *)
Inductive source :=
| FromStorage
| FromUrl
| FromDraw.

(** The stored value of a test as [getItem] returns it. *)
Definition stored (c : config) (testName : string) (s : state) : Js.value :=
  match items (localStorage s) !! (localStoragePrefix c +:+ testName) with
  | Some v => Js.Str v
  | None => Js.Null
  end.

(** The variant the next random draw selects among [allowed]. *)
Definition drawn (allowed : list string) (s : state) : Js.value :=
  array_get allowed
    (floor_mul (random s (draws s) mod 2 ^ 53)%N (length allowed)).

(** The source and the variant [assignVariant] settles on for a test with
    the variants [allowed], when the storage can be read (see
    [assignVariant_closed_form]). *)
Definition resolution (c : config) (testName : string)
    (allowed : list string) (s : state) : source * Js.value :=
  let param := "ab_" +:+ testName in
  if Js.truthy (stored c testName s)
     && Js.includes allowed (stored c testName s)
  then (FromStorage, stored c testName s)
  else if params_has param (search s)
          && Js.includes allowed (params_get param (search s))
  then (FromUrl, params_get param (search s))
  else (FromDraw, drawn allowed s).

(** *** Variant application *)

(** The markup assigned to [title.innerHTML], parsed. *)
Definition hero_title_B : list node :=
  [ Text "وقف هدر الفلوس على إعلانات ما تجيب نتيجة… ";
    Element {| tag := "span"; attrs := ∅;
               classList := ["hero__title-highlight"]; style := ∅ |}
            [Text "نضمن الزيادة وإلا ما تدفع"] ].

Definition hero_title_A : list node :=
  [ Element {| tag := "span"; attrs := ∅;
               classList := ["hero__title-highlight"]; style := ∅ |}
            [Text "نرفع مبيعات مشروعك خلال ٩٠ يوم…"];
    Text " وإلا نرجّع رسومنا" ].

(** [variant === 'B'] and the like. *)
Definition strict_eq (v : Js.value) (s : string) : bool :=
  bool_decide (v = Js.Str s).

Definition applyHeroHeadlineVariant (variant : Js.value) (doc : list node)
  : list node :=
  let on_hero (d : element_data) (kids : list node) : node :=
    let d' := setAttribute "data-variant" (Js.to_string variant) d in
    let on_title (t : element_data) (_ : list node) : node :=
      Element t (if strict_eq variant "B" then hero_title_B
                 else hero_title_A) in
    match update_first_in (has_class "hero__title") on_title kids with
    | None => Element d' kids
    | Some kids' => Element d' kids'
    end in
  match update_first_in (has_id "hero") on_hero doc with
  | None => doc
  | Some doc' => doc'
  end.

Definition why_now_B : string := "كل أسبوع تأخير = تكاليف أعلى ونمو أبطأ — خلّنا نبدأ بخطة واضحة.".

Definition why_now_A : string := "مقاعد الشراكة لهالشهر قربت تكتمل — احجز قبل ما تقفل.".

Definition applyWhyNowTextVariant (variant : Js.value) (doc : list node)
  : list node :=
  let on_section (d : element_data) (kids : list node) : node :=
    Element (setAttribute "data-variant" (Js.to_string variant) d) kids in
  let on_urgency (d : element_data) (_ : list node) : node :=
    Element d [Text (if strict_eq variant "B" then why_now_B
                     else why_now_A)] in
  match update_first_in (has_id "why-now") on_section doc with
  | None => doc
  | Some doc1 =>
      match update_first_in (has_id "urgency-final") on_urgency doc1 with
      | None => doc1
      | Some doc2 => doc2
      end
  end.

(** The body of the [forEach] over the call-to-action buttons. *)
Definition cta_button (variant : Js.value) (button : element_data)
  : element_data :=
  let button := setAttribute "data-variant" (Js.to_string variant) button in
  if strict_eq variant "yellow" then
    style_set "color" "#000"
      (style_set "background" "#F2C526"
         (classList_add "btn--yellow"
            (classList_remove "btn--primary" button)))
  else
    style_set "color" ""
      (style_set "background" ""
         (classList_add "btn--primary"
            (classList_remove "btn--yellow" button))).

Definition applyCtaButtonColorVariant (variant : Js.value)
    (doc : list node) : list node :=
  map (update_all (has_attr "data-cta-id") (cta_button variant)) doc.

(** The [switch] of [applyVariants] for one test. *)
Definition applyVariant (testName : string) (variant : Js.value)
    (doc : list node) : list node :=
  if String.eqb testName "hero_headline"
  then applyHeroHeadlineVariant variant doc
  else if String.eqb testName "why_now_text"
  then applyWhyNowTextVariant variant doc
  else if String.eqb testName "cta_button_color"
  then applyCtaButtonColorVariant variant doc
  else doc.

(** [applyVariants()]. *)
Definition applyVariants : M unit :=
  s <- get_state ;;
  forEach (fun entry : string * Js.value =>
             modify (fun s' =>
               with_steps (steps s' ++ [Applied (fst entry) (snd entry)])
                 (with_document (applyVariant (fst entry) (snd entry)
                                   (document s')) s')))
          (variants s).

(** The page after [applyVariants] has run over the entries of
    [this.variants] (see [applyVariants_closed_form]). *)
Definition applied (entries : list (string * Js.value)) (doc : list node)
  : list node :=
  fold_left (fun d entry => applyVariant (fst entry) (snd entry) d)
            entries doc.

(** The state [applyVariants] leaves. *)
Definition after_apply (s : state) : state :=
  with_steps (steps s ++ map (fun e => Applied (fst e) (snd e)) (variants s))
    (with_document (applied (variants s) (document s)) s).

(** *** Impressions *)

Definition gtag_impression (testName : string) (variant : Js.value) : call :=
  Gtag "event" "ab_test_impression"
       [("test_name", Js.Str testName); ("variant", variant)].

Definition fbq_impression (testName : string) (variant : Js.value) : call :=
  Fbq "trackCustom" "AB_Test_Impression"
      [("test_name", Js.Str testName); ("variant", variant)].

Definition log_impression (testName : string) (variant : Js.value) : call :=
  ConsoleLog ("[A/B Testing] Impression: " +:+ testName +:+ " - "
              +:+ Js.to_string variant).

(** The calls one test's impression makes, given the collectors loaded. *)
Definition impression (g f : collector) (entry : string * Js.value)
  : list call :=
  guarded g (gtag_impression (fst entry) (snd entry)) "GA4 tracking error:"
  ++ guarded f (fbq_impression (fst entry) (snd entry))
             "Meta Pixel tracking error:"
  ++ [log_impression (fst entry) (snd entry)].

(** [trackImpressions()]. *)
Definition trackImpressions (c : config) : M unit :=
  if negb (analyticsEnabled c) then ret tt
  else
    s <- get_state ;;
    forEach (fun entry : string * Js.value =>
               modify (fun s' =>
                 with_steps (steps s' ++ [Reported (fst entry) (snd entry)])
                   (with_calls (calls s' ++ impression (gtag s) (fbq s) entry)
                      s')))
            (variants s).

(** *** Preview mode *)

Definition indent : string :=
  String (ascii_of_nat 10) "                ".

(** The indicator element as [addPreviewIndicator] leaves it: the styled
    box, its markup (the names are plain text) and the close button. The
    click listener of the button is not part of the tree. *)
Definition preview_indicator (testName : string) (variant : Js.value)
  : node :=
  let plain (t : string) : element_data :=
    {| tag := t; attrs := ∅; classList := []; style := ∅ |} in
  Element
    {| tag := "div"; attrs := ∅; classList := ["ab-preview-indicator"];
       style := list_to_map
         [ ("position", "fixed"); ("bottom", "20px"); ("right", "20px");
           ("background-color", "#28a745"); ("color", "white");
           ("padding", "10px 15px"); ("border-radius", "5px");
           ("z-index", "9999"); ("font-family", "Arial, sans-serif");
           ("font-size", "14px");
           ("box-shadow", "0 2px 10px rgba(0,0,0,0.2)");
           ("cursor", "default") ] |}
    [ Text indent;
      Element (plain "strong") [Text "A/B Preview Mode"];
      Element (plain "br") [];
      Text (indent +:+ "Test: " +:+ testName);
      Element (plain "br") [];
      Text (indent +:+ "Variant: " +:+ Js.to_string variant
            +:+ String (ascii_of_nat 10) "            ");
      Element
        {| tag := "span"; attrs := ∅; classList := [];
           style := list_to_map
             [ ("position", "absolute"); ("top", "5px"); ("right", "10px");
               ("cursor", "pointer"); ("font-size", "18px");
               ("font-weight", "bold"); ("color", "white") ] |}
        [Text "×"] ].

(** [addPreviewIndicator(testName, variant)]: an indicator already on the
    page is removed, the new one becomes the last child of the body. *)
Definition addPreviewIndicator (testName : string) (variant : Js.value)
  : M unit :=
  modify (fun s =>
    let doc := match remove_first_in (has_class "ab-preview-indicator")
                       (document s) with
               | Some doc' => doc'
               | None => document s
               end in
    with_document (doc ++ [preview_indicator testName variant]) s).

(** [handlePreviewMode(params)]. *)
Definition handlePreviewMode (c : config) (params : list (string * string))
  : M unit :=
  let testName := params_get "ab_preview" params in
  let variant := params_get "variant" params in
  valid <- (if Js.truthy testName && Js.truthy variant then
              match tests_lookup c (Js.to_string testName) with
              | Variants allowed => ret (Js.includes allowed variant)
              | Inherited => throw TypeError
              | Missing => ret false
              end
            else ret false) ;;
  if valid then
    setItem (localStoragePrefix c +:+ Js.to_string testName) variant ;;;
    set_variant (Js.to_string testName) variant ;;;
    applyVariants ;;;
    addPreviewIndicator (Js.to_string testName) variant
  else ret tt.

(** *** Initialization *)

(** [initialize()]. *)
Definition initialize (c : config) : M unit :=
  s <- get_state ;;
  let urlParams := search s in
  if params_has "ab_preview" urlParams then handlePreviewMode c urlParams
  else
    forEach (assignVariant c) (keys (tests c)) ;;;
    applyVariants ;;;
    trackImpressions c.

(** [new ABTesting(config)]. *)
Definition constructor (c : config) : M unit :=
  modify (with_variants []) ;;; initialize c.

(** The [DOMContentLoaded] handler, once its timer fires: the instance is
    built and published as [window.abTesting]; anything the constructor
    throws is caught and logged. *)
Definition startup (c : config) (s : state) : state :=
  match constructor c s with
  | Return _ s' => with_abTesting true s'
  | Throw _ s' =>
      with_calls
        (calls s' ++ [ConsoleError "A/B Testing initialization error:"]) s'
  end.

(** *** Vocabulary of the properties *)

(** Every configured test has at least one variant. *)
Definition nonempty_variants (c : config) : Prop :=
  forall testName allowed, In (testName, allowed) (tests c) -> allowed <> [].

(** No configured label is the empty string. *)
Definition nonempty_labels (c : config) : Prop :=
  forall testName allowed, In (testName, allowed) (tests c) -> ~ In "" allowed.

(** Every entry of [this.variants] holds a variant that its test allows. *)
Definition resolved_within (c : config) (vs : list (string * Js.value))
  : Prop :=
  forall testName v, obj_get testName vs = Some v ->
    exists allowed label,
      obj_get testName (tests c) = Some allowed /\
      v = Js.Str label /\ In label allowed.

(** A write to the storage. *)
Definition is_write (c : call) : Prop :=
  match c with
  | StorageSet _ _ => True
  | _ => False
  end.

(** An application to the page. *)
Definition is_applied (st : step) : Prop :=
  match st with
  | Applied _ _ => True
  | Reported _ _ => False
  end.

(** What resolving variants leaves alone: [s1] differs from [s] at most
    in [this.variants], the stored items, the random numbers consumed and
    the storage writes on record. *)
Definition resolution_frame (s s1 : state) : Prop :=
  document s1 = document s /\ search s1 = search s /\
  random s1 = random s /\ gtag s1 = gtag s /\ fbq s1 = fbq s /\
  abTesting s1 = abTesting s /\
  getItem_throws (localStorage s1) = getItem_throws (localStorage s) /\
  setItem_throws (localStorage s1) = setItem_throws (localStorage s) /\
  exists writes : list call,
    calls s1 = (calls s ++ writes)%list /\ Forall is_write writes.

(** The query string asks for a preview that [handlePreviewMode] accepts:
    a configured test and one of its variants. *)
Definition preview_valid (c : config) (params : list (string * string))
  : bool :=
  Js.truthy (params_get "ab_preview" params)
  && Js.truthy (params_get "variant" params)
  && match tests_lookup c (Js.to_string (params_get "ab_preview" params)) with
     | Variants allowed => Js.includes allowed (params_get "variant" params)
     | _ => false
     end.

(** The query string names, with some variant, a member of
    [Object.prototype] that is not a test: [handlePreviewMode] throws. *)
Definition preview_throws (c : config) (params : list (string * string))
  : bool :=
  Js.truthy (params_get "ab_preview" params)
  && Js.truthy (params_get "variant" params)
  && match tests_lookup c (Js.to_string (params_get "ab_preview" params)) with
     | Inherited => true
     | _ => false
     end.

(** The page once [addPreviewIndicator] has run on [doc]. *)
Definition with_indicator (testName : string) (variant : Js.value)
    (doc : list node) : list node :=
  match remove_first_in (has_class "ab-preview-indicator") doc with
  | Some doc' => doc'
  | None => doc
  end ++ [preview_indicator testName variant].

(** An element with id [why-now] whose [data-variant] attribute is not
    yet the one of [variant]. *)
Definition stale (variant : Js.value) (d : element_data) : bool :=
  has_id "why-now" d
  && negb (bool_decide
             (attrs d !! "data-variant" = Some (Js.to_string variant))).

(** The entries of [this.variants] once the tests [names] have each been
    resolved from the storage. *)
Definition kept_variants (c : config) (s : state) (names : list string)
  : list (string * Js.value) :=
  fold_left (fun vs t => obj_set t (stored c t s) vs) names [].

(** The state the methods leave, however they end. *)
Definition final {A} (o : outcome A) : state :=
  match o with
  | Return _ s => s
  | Throw _ s => s
  end.

(** A sample page with the elements the three tests target. *)
Definition landing_page : list node :=
  let el (t : string) (a : list (string * string)) (cl : list string)
         (kids : list node) : node :=
    Element {| tag := t; attrs := list_to_map a; classList := cl;
               style := ∅ |} kids in
  [ el "header" [] ["header"]
       [ el "a" [("data-cta-id", "header_cta"); ("href", "#lead-form")]
            ["btn"; "btn--primary"] [Text "Start"] ];
    el "section" [("id", "hero")] ["hero"]
       [ el "h1" [] ["hero__title"] [Text "Headline"];
         el "a" [("data-cta-id", "hero_primary"); ("href", "#lead-form")]
            ["btn"; "btn--primary"] [Text "Book"] ];
    el "section" [("id", "why-now")] ["why-now"]
       [ el "p" [("id", "urgency-final")] [] [Text "Hurry"] ] ].

(** A page load: what the storage holds and whether it throws, the query
    string, the random numbers to come and the collectors loaded. *)
Definition page_load (stored_items : list (string * string))
    (get_throws set_throws : bool) (query : list (string * string))
    (rnd : nat -> N) (g f : collector) : state :=
  {| localStorage := {| items := list_to_map stored_items;
                        getItem_throws := get_throws;
                        setItem_throws := set_throws |};
     search := query; random := rnd; draws := 0;
     document := landing_page; gtag := g; fbq := f; calls := [];
     steps := []; variants := []; abTesting := false |}.

(** The next load of the page in the same browser: the storage is what
    the previous load left; the query string, the random numbers, the
    page and the collectors are those of the new load, and the script
    starts afresh. *)
Definition next_load (previous : state) (query : list (string * string))
    (rnd : nat -> N) (doc : list node) (g f : collector) : state :=
  {| localStorage := localStorage previous;
     search := query; random := rnd; draws := 0;
     document := doc; gtag := g; fbq := f; calls := [];
     steps := []; variants := []; abTesting := false |}.

(** The configuration with the [analyticsEnabled] switch set to [b]. *)
Definition with_analyticsEnabled (b : bool) (c : config) : config :=
  {| tests := tests c; cookieExpiryDays := cookieExpiryDays c;
     localStoragePrefix := localStoragePrefix c; analyticsEnabled := b |}.


(** *** Conversions *)

Definition gtag_conversion (testName : string) (variant : Js.value)
    (conversionType : string) : call :=
  Gtag "event" "ab_test_conversion"
       [("test_name", Js.Str testName); ("variant", variant);
        ("conversion_type", Js.Str conversionType)].

Definition fbq_conversion (testName : string) (variant : Js.value)
    (conversionType : string) : call :=
  Fbq "trackCustom" "AB_Test_Conversion"
      [("test_name", Js.Str testName); ("variant", variant);
       ("conversion_type", Js.Str conversionType)].

Definition log_conversion (testName : string) (variant : Js.value)
    (conversionType : string) : call :=
  ConsoleLog ("[A/B Testing] Conversion: " +:+ testName +:+ " - "
              +:+ Js.to_string variant +:+ " (" +:+ conversionType +:+ ")").

(** The calls one conversion makes, given the collectors loaded. *)
Definition conversion (g f : collector) (testName : string)
    (variant : Js.value) (conversionType : string) : list call :=
  guarded g (gtag_conversion testName variant conversionType)
          "GA4 conversion tracking error:"
  ++ guarded f (fbq_conversion testName variant conversionType)
             "Meta Pixel conversion tracking error:"
  ++ [log_conversion testName variant conversionType].

(** [trackConversion(testName, conversionType)], for a test name that is
    not a member of [Object.prototype] (the click listener passes two
    fixed names): [this.variants[testName]] is then the own property or
    [undefined]. *)
Definition trackConversion (c : config) (testName conversionType : string)
  : M unit :=
  if negb (analyticsEnabled c) then ret tt
  else
    s <- get_state ;;
    let variant := match obj_get testName (variants s) with
                   | Some v => v
                   | None => Js.Undefined
                   end in
    if negb (Js.truthy variant) then ret tt
    else
      modify (fun s' =>
        with_calls (calls s' ++ conversion (gtag s') (fbq s') testName
                                           variant conversionType) s').

(** [e.target.closest(sel)], for the clicked element and its ancestors,
    innermost first. *)
Definition closest (p : element_data -> bool) (path : list element_data)
  : option element_data :=
  List.find p path.

(** The click listener that the [DOMContentLoaded] handler installs on the
    document after the instance is built. *)
Definition on_click (c : config) (path : list element_data) : M unit :=
  match closest (has_attr "data-cta-id") path with
  | None => ret tt
  | Some cta =>
      let ctaId := default "" (attrs cta !! "data-cta-id") in
      s <- get_state ;;
      if abTesting s then
        if String.eqb ctaId "hero_primary"
        then trackConversion c "hero_headline" "cta_click"
        else if String.eqb ctaId "header_cta" || String.eqb ctaId "sticky_cta"
        then trackConversion c "cta_button_color" "cta_click"
        else ret tt
      else ret tt
  end.

(** A conversion event sent to a collector for the test [testName]. *)
Definition is_conversion_of (testName : string) (cl : call) : Prop :=
  exists variant conversionType,
    cl = gtag_conversion testName variant conversionType \/
    cl = fbq_conversion testName variant conversionType.

End ABTesting.

(** ** Analytics: scroll depth *)

Module Analytics.

Import Browser.

(** The options of [ANALYTICS_CONFIG] that decide scroll tracking. *)
Record config := {
  analyticsEnabled : bool;
  trackScrollDepthEnabled : bool;
  scrollDepthThresholds : list Z
}.

Definition ANALYTICS_CONFIG : config := {|
  analyticsEnabled := true;
  trackScrollDepthEnabled := true;
  scrollDepthThresholds := [25; 50; 75; 100]%Z
|}.

(** The scroll-tracking part of an [Analytics] instance: the
    [scrollTracked] flags, one per threshold, and the calls made so far by
    [trackScrollDepth] (no other method reads or writes the flags or
    reports scroll depth). *)
Record t := {
  cfg : config;
  scrollTracked : gmap Z bool;
  calls : list call
}.

(** The constructor: every threshold starts untracked. *)
Definition constructor (c : config) : t := {|
  cfg := c;
  scrollTracked :=
    foldl (λ m threshold, <[threshold := false]> m) ∅
          (scrollDepthThresholds c);
  calls := []
|}.

(** What [Math.round(scrollY / (scrollHeight - innerHeight) * 100)] can
    be: an integer, or one of the three non-finite doubles when the page
    is not taller than the window. *)
Inductive number :=
| NaN
| PosInfinity
| NegInfinity
| Finite (z : Z).

(** [scrollPercent >= threshold]. *)
Definition number_ge (n : number) (threshold : Z) : bool :=
  match n with
  | NaN => false
  | PosInfinity => true
  | NegInfinity => false
  | Finite z => (threshold <=? z)%Z
  end.

(** [!this.scrollTracked[threshold]]. *)
Definition untracked (a : t) (threshold : Z) : bool :=
  match scrollTracked a !! threshold with
  | Some true => false
  | _ => true
  end.

Definition gtag_scroll_depth (threshold : Z) : call :=
  Gtag "event" "scroll_depth"
       [("event_category", Js.Str "Scroll");
        ("event_label", Js.Str (pretty threshold +:+ "%"));
        ("value", Js.Num threshold)].

Definition fbq_scroll_depth (threshold : Z) : call :=
  Fbq "trackCustom" "Scroll_Depth"
      [("scroll_depth", Js.Str (pretty threshold +:+ "%"))].

Definition log_scroll_depth (threshold : Z) : call :=
  ConsoleLog ("[Analytics] Scroll Depth: " +:+ pretty threshold +:+ "%").

(** The body of the [forEach] of [trackScrollDepth] for one threshold. *)
Definition scroll_step (gtag fbq : collector) (scrollPercent : number)
    (a : t) (threshold : Z) : t :=
  if untracked a threshold && number_ge scrollPercent threshold then
    {| cfg := cfg a;
       scrollTracked := <[threshold := true]> (scrollTracked a);
       calls :=
         calls a
         ++ guarded gtag (gtag_scroll_depth threshold)
                    "GA4 scroll depth tracking error:"
         ++ guarded fbq (fbq_scroll_depth threshold)
                    "Meta Pixel scroll depth tracking error:"
         ++ [log_scroll_depth threshold] |}
  else a.

(** [trackScrollDepth], for the scroll percentage of the event and the
    collectors loaded when it fires. *)
Definition trackScrollDepth (gtag fbq : collector) (scrollPercent : number)
    (a : t) : t :=
  foldl (scroll_step gtag fbq scrollPercent) a
        (scrollDepthThresholds (cfg a)).

(** The three reports of one threshold. *)
Definition scroll_calls (threshold : Z) : list call :=
  [gtag_scroll_depth threshold; fbq_scroll_depth threshold;
   log_scroll_depth threshold].

(** The invariant of the instance for threshold [th]: each of its reports
    was made at most once, and not at all while its flag is unset. *)
Definition reported_once (th : Z) (a : t) : Prop :=
  forall c, c ∈ scroll_calls th ->
    (times c (calls a) <= 1)%nat /\
    (untracked a th = true -> times c (calls a) = 0%nat).


(** A scroll event as the listener sees it. *)
Record scroll_event := {
  ev_gtag : collector;
  ev_fbq : collector;
  ev_percent : number
}.

(** [init] installs the listener only when analytics and scroll tracking
    are both enabled. *)
Definition on_scroll (a : t) (e : scroll_event) : t :=
  if analyticsEnabled (cfg a) && trackScrollDepthEnabled (cfg a)
  then trackScrollDepth (ev_gtag e) (ev_fbq e) (ev_percent e) a
  else a.

(** A page load: the instance is built, then scroll events arrive. *)
Definition page_load (c : config) (events : list scroll_event) : t :=
  foldl on_scroll (constructor c) events.

End Analytics.

(** ** Form handler: phone number formatting *)

Module FormHandler.

(** The body of the [input] listener installed by
    [setupPhoneNumberFormatting]: from the current field value to the
    value written back to the field. *)
Definition formatPhoneNumber (input : string) : string :=
  let value := Js.strip_non_digits input in
  let value :=
    if (0 <? String.length value)%nat then "0" +:+ value else value in
  let value :=
    if (4 <? String.length value)%nat
    then Js.substring value 0 4 +:+ "-" +:+ Js.substring_from value 4
    else value in
  let value :=
    if (8 <? String.length value)%nat
    then Js.substring value 0 8 +:+ "-" +:+ Js.substring value 8 12
    else value in
  Js.substring value 0 12.

(** No character of [s] is a digit. *)
Definition no_digit (s : string) : Prop :=
forall i c, String.get i s = Some c -> Js.is_digit c = false.

(** Every character of [s] is a digit. *)
Definition all_digits (s : string) : Prop :=
forall i c, String.get i s = Some c -> Js.is_digit c = true.

End FormHandler.

(** ** Main: the steps of the lead form *)

Module FormNavigation.

(** A [required] field of a step, as the navigation sees it: whether
    [value.trim()] is empty, and whether the class list holds
    [border-danger]. *)
Record field := {
  blank : bool;
  border_danger : bool
}.

(** A [.form-step] element: the value of its [data-step] attribute,
    whether its class list holds [active], and its [required] fields.
    Steps do not nest. *)
Record form_step := {
  data_step : string;
  active : bool;
  required : list field
}.

(** [window.formNavigation] and what it reads and writes: the step
    counter ([maxSteps] is the constant 2), the [.form-step] elements of
    the page in document order, and the lines written to the console. *)
Record t := {
  currentStep : Z;
  steps : list form_step;
  console : list string
}.

(** The selector [.form-step[data-step="n"]], with the number written by
    the template literal. *)
Definition selects (n : Z) (st : form_step) : bool :=
  String.eqb (data_step st) (pretty n).

(** [document.querySelector] with that selector. *)
Definition querySelector (n : Z) (l : list form_step) : option form_step :=
  List.find (selects n) l.

(** A mutation through the reference that lookup returned: the first
    step the selector matches is replaced by [f] of it. *)
Fixpoint update_step (n : Z) (f : form_step -> form_step)
    (l : list form_step) : list form_step :=
  match l with
  | [] => []
  | st :: rest =>
      if selects n st then f st :: rest else st :: update_step n f rest
  end.

(** [classList.add('active')] and [classList.remove('active')]. *)
Definition set_active (b : bool) (st : form_step) : form_step :=
  {| data_step := data_step st; active := b; required := required st |}.

(** The body of the [forEach] of [validateStep]: a blank field gets the
    class [border-danger], any other field loses it. *)
Definition validate_field (fd : field) : field :=
  {| blank := blank fd; border_danger := blank fd |}.

Definition validate_fields (st : form_step) : form_step :=
  {| data_step := data_step st; active := active st;
     required := map validate_field (required st) |}.

(** [validateStep(step)]: the result and the page it leaves. *)
Definition validateStep (step : Z) (a : t) : bool * t :=
  match querySelector step (steps a) with
  | None => (false, a)
  | Some st =>
      (forallb (fun fd => negb (blank fd)) (required st),
       {| currentStep := currentStep a;
          steps := update_step step validate_fields (steps a);
          console := console a |})
  end.

(** [updateProgressBar()]: [currentStep / 2 * 100] is the integer
    [currentStep * 50]. *)
Definition updateProgressBar (a : t) : t :=
  {| currentStep := currentStep a; steps := steps a;
     console := console a
                ++ ["Form progress: " +:+ pretty (currentStep a * 50)%Z
                    +:+ "%"] |}.

(** [nextStep()]. Scrolling the form into view on a narrow window
    changes nothing of this state. *)
Definition nextStep (a : t) : t :=
  match querySelector (currentStep a) (steps a),
        querySelector (currentStep a + 1) (steps a) with
  | Some _, Some _ =>
      let (isValid, a1) := validateStep (currentStep a) a in
      if isValid then
        updateProgressBar
          {| currentStep := currentStep a + 1;
             steps := update_step (currentStep a + 1) (set_active true)
                        (update_step (currentStep a) (set_active false)
                           (steps a1));
             console := console a1 |}
      else a1
  | _, _ => a
  end.

(** [prevStep()]. *)
Definition prevStep (a : t) : t :=
  match querySelector (currentStep a) (steps a),
        querySelector (currentStep a - 1) (steps a) with
  | Some _, Some _ =>
      updateProgressBar
        {| currentStep := currentStep a - 1;
           steps := update_step (currentStep a - 1) (set_active true)
                      (update_step (currentStep a) (set_active false)
                         (steps a));
           console := console a |}
  | _, _ => a
  end.

(** The step shown is the step the counter names: a step is [active]
    exactly when its [data-step] is the counter. *)
Definition shows_current (a : t) : Prop :=
  forall st, In st (steps a) -> active st = selects (currentStep a) st.

(** The lead form as the page starts: two steps, the first shown, with
    the required fields of the first step filled in or not. *)
Definition lead_form (first_step : list field) : t :=
  {| currentStep := 1;
     steps := [ {| data_step := "1"; active := true;
                   required := first_step |};
                {| data_step := "2"; active := false;
                   required := [ {| blank := true;
                                    border_danger := false |} ] |} ];
     console := [] |}.

End FormNavigation.

(* ===================================================================== *)
(** * Properties *)
(* ===================================================================== *)

(** ** Phone number formatting *)

Section PhoneFormat.

Import FormHandler.

Example formatPhoneNumber_typed :
  formatPhoneNumber "5 (12) 345-678 9012" = "0512-345-678".
Proof. reflexivity. Qed.

Example formatPhoneNumber_short : formatPhoneNumber "+9a6" = "096".
Proof. reflexivity. Qed.

Example formatPhoneNumber_letters : formatPhoneNumber "abc -" = "".
Proof. reflexivity. Qed.

Lemma all_digits_cons c s :
  all_digits (String c s) -> Js.is_digit c = true /\ all_digits s.
Proof.
  intros H. split.
  - apply (H 0%nat). reflexivity.
  - intros i d Hd. apply (H (S i)). exact Hd.
Qed.

Lemma strip_all_digits s : all_digits (Js.strip_non_digits s).
Proof.
  induction s as [|c s IH]; intros i d; simpl.
  - discriminate.
  - destruct (Js.is_digit c) eqn:E; [|apply IH].
    destruct i as [|i]; simpl.
    + intros [= <-]. exact E.
    + apply IH.
Qed.

Lemma strip_empty_iff s : Js.strip_non_digits s = "" <-> no_digit s.
Proof.
  induction s as [|c s IH]; simpl.
  - split; [intros _ i d; discriminate | reflexivity].
  - destruct (Js.is_digit c) eqn:E.
    + split; [discriminate|].
      intros H. specialize (H 0%nat c eq_refl). congruence.
    + rewrite IH. split.
      * intros H [|i] d; simpl; [intros [= <-]; exact E | apply H].
      * intros H i d Hd. apply (H (S i)). exact Hd.
Qed.

(** C10. For every input string the phone-number formatter writes back a
    value of length at most 12; the value is empty exactly when the input
    holds no digit; otherwise it starts with the character 0; a dash occurs
    only at index 4 or index 8, and every other character is a digit. *)
Theorem formatPhoneNumber_shape (input : string) :
  (String.length (formatPhoneNumber input) <= 12)%nat /\
  (formatPhoneNumber input = "" <-> no_digit input) /\
  (formatPhoneNumber input = "" \/
   String.get 0 (formatPhoneNumber input) = Some "0"%char) /\
  (forall i c, String.get i (formatPhoneNumber input) = Some c ->
     (c = "-"%char -> i = 4%nat \/ i = 8%nat) /\
     (c <> "-"%char -> Js.is_digit c = true)).
Proof.
  rewrite <- strip_empty_iff.
  unfold formatPhoneNumber.
  generalize (strip_all_digits input).
  generalize (Js.strip_non_digits input) as d.
  intros d Hd.
  do 11 (try (destruct d as [|? d];
              [|apply all_digits_cons in Hd; destruct Hd as [? Hd]])).
  all: lazy -[Js.is_digit all_digits Nat.le].
  all: split; [lia|split; [split; [try discriminate; reflexivity
                                  |try discriminate; reflexivity]|split]].
  all: try (left; reflexivity); try (right; reflexivity).
  all: intros i c Hi.
  all: do 12 (try (destruct i as [|i])).
  all: try discriminate Hi.
  all: injection Hi as <-.
  all: split; intros Hc;
       try (left; reflexivity); try (right; reflexivity);
       try reflexivity; try assumption;
       try (exfalso; congruence);
       try (exfalso; subst; discriminate).
Qed.

End PhoneFormat.

(** ** Scroll depth is reported once per threshold *)

Section ScrollDepth.

Import Browser Analytics.

Example scroll_down_and_up :
  let scroll p :=
    {| ev_gtag := Accepts; ev_fbq := Absent; ev_percent := Finite p |} in
  calls (page_load ANALYTICS_CONFIG [scroll 30; scroll 10; scroll 60]%Z)
  = [ gtag_scroll_depth 25; log_scroll_depth 25;
      gtag_scroll_depth 50; log_scroll_depth 50 ].
Proof. reflexivity. Qed.

Lemma times_nil c : times c [] = 0%nat.
Proof. reflexivity. Qed.

Lemma times_cons c x l :
  times c (x :: l) = ((if decide (x = c) then 1 else 0) + times c l)%nat.
Proof.
  unfold times. rewrite filter_cons. destruct (decide (x = c)); reflexivity.
Qed.

Lemma times_app c l1 l2 : times c (l1 ++ l2) = (times c l1 + times c l2)%nat.
Proof. unfold times. rewrite filter_app, length_app. reflexivity. Qed.

Lemma append_length s t :
  String.length (s +:+ t) = (String.length s + String.length t)%nat.
Proof.
  induction s as [|c s IH]; [reflexivity|].
  change (S (String.length (s +:+ t)) = S (String.length s + String.length t)).
  now rewrite IH.
Qed.

Lemma append_cancel_r s1 s2 t : s1 +:+ t = s2 +:+ t -> s1 = s2.
Proof.
  revert s2. induction s1 as [|c s1 IH]; intros [|d s2] H.
  - reflexivity.
  - apply (f_equal String.length) in H.
    rewrite !append_length in H. simpl in H. lia.
  - apply (f_equal String.length) in H.
    rewrite !append_length in H. simpl in H. lia.
  - change (String c (s1 +:+ t) = String d (s2 +:+ t)) in H.
    injection H as -> H. f_equal. now apply IH.
Qed.

Lemma gtag_scroll_depth_inj a b :
  gtag_scroll_depth a = gtag_scroll_depth b -> a = b.
Proof. unfold gtag_scroll_depth. intros H. injection H as _ H. exact H. Qed.

Lemma fbq_scroll_depth_inj a b :
  fbq_scroll_depth a = fbq_scroll_depth b -> a = b.
Proof.
  unfold fbq_scroll_depth. intros H. injection H as H.
  apply append_cancel_r in H. now apply (inj pretty) in H.
Qed.

Lemma log_scroll_depth_inj a b :
  log_scroll_depth a = log_scroll_depth b -> a = b.
Proof.
  unfold log_scroll_depth. intros H. injection H as H.
  apply (inj (String.app _)) in H.
  apply append_cancel_r in H. now apply (inj pretty) in H.
Qed.

(** The reports of one firing of a threshold hold each report of [th] at
    most once, and none of them when the threshold is another one. *)
Lemma times_firing gtag fbq th th' c :
  c ∈ scroll_calls th ->
  (times c (guarded gtag (gtag_scroll_depth th')
                    "GA4 scroll depth tracking error:"
            ++ guarded fbq (fbq_scroll_depth th')
                       "Meta Pixel scroll depth tracking error:"
            ++ [log_scroll_depth th']) <= 1)%nat /\
  (th <> th' ->
   times c (guarded gtag (gtag_scroll_depth th')
                    "GA4 scroll depth tracking error:"
            ++ guarded fbq (fbq_scroll_depth th')
                       "Meta Pixel scroll depth tracking error:"
            ++ [log_scroll_depth th']) = 0%nat).
Proof.
  intros Hc. unfold scroll_calls in Hc.
  rewrite !elem_of_cons, elem_of_nil in Hc.
  destruct Hc as [-> | [-> | [-> | []]]].
  all: destruct gtag, fbq; simpl; rewrite ?times_cons, ?times_nil.
  all: repeat match goal with
       | |- context [decide (?x = ?y)] => destruct (decide (x = y))
       end.
  all: try discriminate.
  all: split; [lia|intros Hne].
  all: try lia.
  all: exfalso; apply Hne; symmetry;
       first [ apply gtag_scroll_depth_inj; assumption
             | apply fbq_scroll_depth_inj; assumption
             | apply log_scroll_depth_inj; assumption ].
Qed.


Lemma scroll_step_reported_once gtag fbq p th a th' :
  reported_once th a -> reported_once th (scroll_step gtag fbq p a th').
Proof.
  intros Inv c Hc. destruct (Inv c Hc) as [Hle Hzero].
  unfold scroll_step.
  destruct (untracked a th' && number_ge p th') eqn:Fire; [|now split].
  apply andb_prop in Fire as [Hun _].
  destruct (times_firing gtag fbq th th' c Hc) as [Hnew Hother].
  unfold untracked in *. cbn [calls scrollTracked].
  rewrite times_app.
  destruct (decide (th = th')) as [<-|Hne].
  - rewrite (Hzero Hun), lookup_insert_eq. split; [lia|discriminate].
  - rewrite (Hother Hne), lookup_insert_ne by congruence.
    split; [lia|]. intros H. rewrite (Hzero H). lia.
Qed.

Lemma trackScrollDepth_steps gtag fbq p (P : t -> Prop) :
  (forall a th', P a -> P (scroll_step gtag fbq p a th')) ->
  forall a, P a -> P (trackScrollDepth gtag fbq p a).
Proof.
  intros Hstep a. unfold trackScrollDepth.
  generalize (scrollDepthThresholds (cfg a)) as ths.
  intros ths. revert a.
  induction ths as [|th' ths IH]; intros a Ha; simpl; [exact Ha|].
  apply IH, Hstep, Ha.
Qed.

Lemma on_scroll_steps (P : t -> Prop) :
  (forall gtag fbq p a th', P a -> P (scroll_step gtag fbq p a th')) ->
  forall events a, P a -> P (foldl on_scroll a events).
Proof.
  intros Hstep events.
  induction events as [|e events IH]; intros a Ha; simpl; [exact Ha|].
  apply IH. unfold on_scroll.
  destruct (analyticsEnabled (cfg a) && trackScrollDepthEnabled (cfg a));
    [|exact Ha].
  apply trackScrollDepth_steps; [apply Hstep | exact Ha].
Qed.

(** Once the flag of [th] is set, a step neither clears it nor reports
    [th] again. *)
Lemma scroll_step_tracked gtag fbq p th c n a th' :
  c ∈ scroll_calls th ->
  scrollTracked a !! th = Some true /\ times c (calls a) = n ->
  scrollTracked (scroll_step gtag fbq p a th') !! th = Some true /\
  times c (calls (scroll_step gtag fbq p a th')) = n.
Proof.
  intros Hc [Hflag Hn]. unfold scroll_step.
  destruct (untracked a th' && number_ge p th') eqn:Fire; [|now split].
  apply andb_prop in Fire as [Hun _].
  destruct (decide (th = th')) as [<-|Hne].
  - unfold untracked in Hun. rewrite Hflag in Hun. discriminate.
  - destruct (times_firing gtag fbq th th' c Hc) as [_ Hother].
    cbn [calls scrollTracked].
    rewrite times_app, (Hother Hne), lookup_insert_ne by congruence.
    split; [exact Hflag | lia].
Qed.

(** C9. During a page load each scroll-depth report of a threshold (the
    gtag event, the pixel event and the console line) is made at most
    once, whatever scroll events arrive and whichever collectors are
    loaded; and from any state in which the threshold's flag is set, later
    scroll events add no report for it and leave the flag set. *)
Theorem scroll_depth_reported_once (c : config) (th : Z) :
  (forall events report, report ∈ scroll_calls th ->
     (times report (calls (page_load c events)) <= 1)%nat) /\
  (forall (a : t) events report, report ∈ scroll_calls th ->
     scrollTracked a !! th = Some true ->
     scrollTracked (foldl on_scroll a events) !! th = Some true /\
     times report (calls (foldl on_scroll a events))
     = times report (calls a)).
Proof.
  split.
  - intros events report Hr. unfold page_load.
    refine (proj1 (on_scroll_steps (reported_once th) _ events
                     (constructor c) _ report Hr)).
    + intros gtag fbq p a th'. apply scroll_step_reported_once.
    + intros r _. cbn [calls constructor]. rewrite times_nil.
      split; [lia | reflexivity].
  - intros a events report Hr Hflag.
    apply (on_scroll_steps
             (fun a' => scrollTracked a' !! th = Some true /\
                        times report (calls a') = times report (calls a))).
    + intros gtag fbq p a' th'. now apply scroll_step_tracked.
    + split; [exact Hflag | reflexivity].
Qed.

(** The four configured thresholds are each reported exactly once by a
    page load that scrolls to the bottom, back up and down again. *)
Example scroll_to_bottom_twice :
  let bottom := {| ev_gtag := Accepts; ev_fbq := Throws;
                   ev_percent := Finite 100 |} in
  let top := {| ev_gtag := Accepts; ev_fbq := Throws;
                ev_percent := Finite 0 |} in
  map (fun th => times (gtag_scroll_depth th)
                   (calls (page_load ANALYTICS_CONFIG [bottom; top; bottom])))
      [25; 50; 75; 100]%Z
  = [1; 1; 1; 1]%nat.
Proof. vm_compute. reflexivity. Qed.

End ScrollDepth.

(** ** Variant assignment *)

Section Assignment.

Import Browser Dom ABTesting.

Lemma obj_get_set_eq {A} k (v : A) o : obj_get k (obj_set k v o) = Some v.
Proof.
  induction o as [|[k' v'] o IH]; simpl.
  - now rewrite String.eqb_refl.
  - destruct (String.eqb k k') eqn:E; simpl; rewrite E; [reflexivity|exact IH].
Qed.

Lemma obj_get_set_ne {A} k k' (v : A) o :
  k <> k' -> obj_get k' (obj_set k v o) = obj_get k' o.
Proof.
  intros Hne. induction o as [|[k0 v0] o IH]; simpl.
  - destruct (String.eqb k' k) eqn:E; [|reflexivity].
    apply String.eqb_eq in E. congruence.
  - destruct (String.eqb k k0) eqn:E; simpl.
    + apply String.eqb_eq in E. subst k0.
      destruct (String.eqb k' k) eqn:E'; [|reflexivity].
      apply String.eqb_eq in E'. congruence.
    + destruct (String.eqb k' k0); [reflexivity|exact IH].
Qed.

Lemma obj_get_In {A} k (v : A) o : obj_get k o = Some v -> In (k, v) o.
Proof.
  induction o as [|[k' v'] o IH]; simpl; [discriminate|].
  destruct (String.eqb k k') eqn:E.
  - apply String.eqb_eq in E. intros [= ->]. left. now subst.
  - intros H. right. exact (IH H).
Qed.

Lemma includes_In allowed v :
  Js.includes allowed v = true <->
  exists label, v = Js.Str label /\ In label allowed.
Proof.
  destruct v as [| |x|z]; simpl.
  1,2,4: split; [discriminate | intros (l & [=] & _)].
  rewrite existsb_exists. split.
  - intros (y & Hy & E). apply String.eqb_eq in E. subst y. eauto.
  - intros (l & [= ->] & Hl). exists l. split; [exact Hl|apply String.eqb_refl].
Qed.

Lemma tests_lookup_own c testName allowed :
  obj_get testName (tests c) = Some allowed ->
  tests_lookup c testName = Variants allowed.
Proof. unfold tests_lookup. now intros ->. Qed.

(** [assignVariant] in closed form: it throws when the storage cannot be
    read, keeps a valid stored variant without any write, and otherwise
    records the override or the drawn variant and writes it to the
    storage. *)
Lemma assignVariant_closed_form c testName allowed s :
  obj_get testName (tests c) = Some allowed ->
  assignVariant c testName s =
    if getItem_throws (localStorage s) then Throw StorageError s
    else
      let key := localStoragePrefix c +:+ testName in
      match resolution c testName allowed s with
      | (FromStorage, v) =>
          Return tt (with_variants (obj_set testName v (variants s)) s)
      | (FromUrl, v) =>
          setItem key v (with_variants (obj_set testName v (variants s)) s)
      | (FromDraw, v) =>
          setItem key v
            (with_variants (obj_set testName v (variants s))
               (with_draws (S (draws s)) s))
      end.
Proof.
  intros Hown. apply tests_lookup_own in Hown.
  unfold assignVariant, resolution, stored, drawn, bind, getItem,
    tests_includes, get_state, set_variant, modify, math_random, ret.
  rewrite Hown.
  destruct (getItem_throws (localStorage s)); [reflexivity|].
  set (sv := match items (localStorage s) !! _ with
             | Some v => Js.Str v
             | None => Js.Null
             end).
  destruct (Js.truthy sv); cbn [andb];
    [destruct (Js.includes allowed sv); [reflexivity|]|].
  all: destruct (params_has ("ab_" +:+ testName) (search s)); cbn [andb];
         [destruct (Js.includes allowed _)|]; reflexivity.
Qed.

(** Rounding moves a product by at most half a unit in the last place,
    which is at most the product over [2^53]. *)
Lemma round_double_le m :
  (2 ^ 53 <= m)%N -> (round_double m * 2 ^ 53 <= m * 2 ^ 53 + m)%N.
Proof.
  intros Hm. unfold round_double.
  destruct (N.ltb_spec m (2 ^ 53)) as [H|_]; [lia|].
  assert (0 < m)%N as Hpos by lia.
  destruct (N.log2_spec m Hpos) as [Hlo Hhi].
  assert (53 <= N.log2 m)%N as Hlog.
  { apply N.log2_le_pow2; [exact Hpos | exact Hm]. }
  set (shift := (N.log2 m - 52)%N).
  assert (shift = N.succ (shift - 1)) as Hs by (unfold shift; lia).
  assert (2 ^ shift = 2 * 2 ^ (shift - 1))%N as Hpow.
  { rewrite Hs at 1. apply N.pow_succ_r'. }
  assert (2 ^ (shift - 1) * 2 ^ 53 = 2 ^ N.log2 m)%N as Hhalf.
  { rewrite <- N.pow_add_r. f_equal. unfold shift. lia. }
  assert (2 ^ shift <> 0)%N as Hnz by (apply N.pow_nonzero; discriminate).
  pose proof (N.div_mod m (2 ^ shift) Hnz) as Hdm.
  set (q := (m / 2 ^ shift)%N) in *. set (rem := (m mod 2 ^ shift)%N) in *.
  set (half := (2 ^ (shift - 1))%N) in *.
  destruct ((half <? rem)%N || ((rem =? half)%N && N.odd q)) eqn:E.
  - assert (half <= rem)%N as Hr.
    { apply orb_prop in E as [E|E].
      - apply N.ltb_lt in E. lia.
      - apply andb_prop in E as [E _]. apply N.eqb_eq in E. lia. }
    nia.
  - nia.
Qed.

(** The rounded product never reaches [length]. *)
Lemma floor_mul_lt r n :
  (r < 2 ^ 53)%N -> n <> 0%nat -> (floor_mul r n < n)%nat.
Proof.
  intros Hr Hn. unfold floor_mul.
  assert (round_double (r * N.of_nat n) / 2 ^ 53 < N.of_nat n)%N as H.
  { apply N.Div0.div_lt_upper_bound.
    destruct (N.ltb_spec (r * N.of_nat n) (2 ^ 53)) as [Hsmall|Hbig].
    - unfold round_double.
      destruct (N.ltb_spec (r * N.of_nat n) (2 ^ 53)); nia.
    - pose proof (round_double_le _ Hbig). nia. }
  lia.
Qed.

(** The product that is a tie between two doubles: the script selects
    the third of three variants where the exact product would select the
    second. *)
Example floor_mul_tie : floor_mul 6004799503160661 3 = 2%nat.
Proof. vm_compute. reflexivity. Qed.

Lemma drawn_member allowed s :
  allowed <> [] ->
  exists label, drawn allowed s = Js.Str label /\ In label allowed.
Proof.
  intros Hne. unfold drawn, array_get.
  set (i := floor_mul _ _).
  assert (i < length allowed)%nat as Hi.
  { apply floor_mul_lt.
    - apply N.mod_lt. discriminate.
    - destruct allowed; [congruence | discriminate]. }
  destruct (lookup_lt_is_Some_2 allowed i Hi) as [x Hx].
  rewrite Hx. exists x. split; [reflexivity|].
  apply list_elem_of_In. eapply list_elem_of_lookup_2. exact Hx.
Qed.

(** Whatever the source, the variant settled on is one the test allows. *)
Lemma resolution_member c testName allowed s :
  allowed <> [] ->
  exists label,
    snd (resolution c testName allowed s) = Js.Str label /\ In label allowed.
Proof.
  intros Hne. unfold resolution.
  destruct (Js.truthy _ && Js.includes allowed (stored c testName s))
    eqn:E1; cbn [snd].
  { apply andb_prop in E1 as [_ E1]. now apply includes_In. }
  destruct (params_has _ _ && Js.includes allowed _) eqn:E2; cbn [snd].
  { apply andb_prop in E2 as [_ E2]. now apply includes_In. }
  now apply drawn_member.
Qed.

(** A completed [assignVariant] has given the test an allowed variant and
    left the other entries of [this.variants] alone. *)
Lemma assignVariant_returns c testName allowed s s' :
  obj_get testName (tests c) = Some allowed ->
  allowed <> [] ->
  assignVariant c testName s = Return tt s' ->
  exists label,
    In label allowed /\
    variants s' = obj_set testName (Js.Str label) (variants s) /\
    search s' = search s.
Proof.
  intros Hown Hne. rewrite (assignVariant_closed_form _ _ _ _ Hown).
  destruct (getItem_throws (localStorage s)); [discriminate|].
  destruct (resolution_member c testName allowed s Hne) as (label & E & Hl).
  destruct (resolution c testName allowed s) as [src v].
  cbn [snd] in E. subst v. cbv zeta. unfold setItem.
  destruct src; cbn [localStorage with_variants with_draws];
    try destruct (setItem_throws (localStorage s)); try discriminate;
    intros [= <-]; exists label; repeat split; exact Hl.
Qed.

Lemma keys_obj_get {A} k (o : list (string * A)) :
  In k (keys o) -> exists v, obj_get k o = Some v.
Proof.
  induction o as [|[k' v'] o IH]; simpl; [intros []|].
  intros H. destruct (String.eqb k k') eqn:E; [eauto|].
  destruct H as [->|H]; [|exact (IH H)].
  rewrite String.eqb_refl in E. discriminate.
Qed.

Lemma obj_get_keys {A} k (v : A) o : obj_get k o = Some v -> In k (keys o).
Proof. intros H. apply obj_get_In in H. apply (in_map fst) in H. exact H. Qed.

Lemma resolved_within_set c testName allowed label vs :
  obj_get testName (tests c) = Some allowed ->
  In label allowed ->
  resolved_within c vs ->
  resolved_within c (obj_set testName (Js.Str label) vs).
Proof.
  intros Hown Hl Hvs k v.
  destruct (String.eqb_spec testName k) as [<-|Hne].
  - rewrite obj_get_set_eq. intros [= <-]. eauto.
  - rewrite obj_get_set_ne by exact Hne. apply Hvs.
Qed.

(** The loop of [initialize] over the configured tests. *)
Lemma assign_all_resolved c names s s' :
  nonempty_variants c ->
  (forall n, In n names -> In n (keys (tests c))) ->
  forEach (assignVariant c) names s = Return tt s' ->
  search s' = search s /\
  (resolved_within c (variants s) -> resolved_within c (variants s')) /\
  (forall n, In n names \/ In n (keys (variants s)) ->
             In n (keys (variants s'))).
Proof.
  intros Hwf. revert s.
  induction names as [|n names IH]; intros s Hsub; simpl.
  - intros [= <-]. repeat split; [tauto | intros n [[]|H]; exact H].
  - unfold bind. destruct (assignVariant c n s) as [[] s1|] eqn:E1;
      [|discriminate].
    intros E2.
    destruct (keys_obj_get n (tests c) (Hsub n (or_introl eq_refl)))
      as [allowed Hown].
    assert (allowed <> []) as Hne
      by (eapply Hwf, obj_get_In; exact Hown).
    destruct (assignVariant_returns _ _ _ _ _ Hown Hne E1)
      as (label & Hl & Hv & Hs).
    destruct (IH s1 (fun m Hm => Hsub m (or_intror Hm)) E2)
      as (IHs & IHres & IHkeys).
    split; [congruence|]. split.
    + intros Hres. apply IHres. rewrite Hv.
      now apply (resolved_within_set c n allowed).
    + intros m Hm. apply IHkeys.
      destruct (String.eqb_spec n m) as [<-|Hnm].
      * right. rewrite Hv. eapply obj_get_keys, obj_get_set_eq.
      * destruct Hm as [[?|Hm]|Hm]; [congruence | now left | right].
        rewrite Hv.
        destruct (keys_obj_get _ _ Hm) as [v Hv'].
        eapply obj_get_keys. rewrite obj_get_set_ne by exact Hnm. exact Hv'.
Qed.

Lemma with_document_id s : with_document (document s) s = s.
Proof. now destruct s. Qed.

Lemma with_calls_id s : with_calls (calls s) s = s.
Proof. now destruct s. Qed.

Lemma forEach_modify {A} (f : A -> state -> state) l s :
  forEach (fun x => modify (f x)) l s
  = Return tt (fold_left (fun s' x => f x s') l s).
Proof.
  revert s. induction l as [|x l IH]; intros s; simpl; [reflexivity|].
  unfold bind, modify at 1. apply IH.
Qed.

Lemma with_steps_id s : with_steps (steps s) s = s.
Proof. now destruct s. Qed.

(** [applyVariants] rewrites the page, one test after the other, and
    changes nothing else. *)
Lemma applyVariants_closed_form s :
  applyVariants s = Return tt (after_apply s).
Proof.
  unfold applyVariants, after_apply, bind, get_state.
  rewrite forEach_modify. f_equal.
  unfold applied. generalize (variants s) as l. intros l. revert s.
  induction l as [|e l IH]; intros s; simpl.
  - rewrite app_nil_r. now destruct s.
  - rewrite IH. cbn [steps document with_steps with_document].
    rewrite <- app_assoc. reflexivity.
Qed.

(** [trackImpressions] only makes the impression calls, one group per
    entry of [this.variants], and none when analytics is disabled. *)
Lemma trackImpressions_closed_form c s :
  trackImpressions c s
  = Return tt
      (if analyticsEnabled c
       then with_steps
              (steps s ++ map (fun e => Reported (fst e) (snd e))
                              (variants s))
              (with_calls (calls s ++ flat_map (impression (gtag s) (fbq s))
                                               (variants s)) s)
       else s).
Proof.
  unfold trackImpressions.
  destruct (analyticsEnabled c); cbn [negb]; [|reflexivity].
  unfold bind, get_state. rewrite forEach_modify. f_equal.
  generalize (variants s) as l. generalize (gtag s) (fbq s).
  intros g f l. revert s.
  induction l as [|e l IH]; intros s; simpl.
  - rewrite !app_nil_r. now destruct s.
  - rewrite IH. cbn [calls steps with_calls with_steps].
    rewrite <- !app_assoc. reflexivity.
Qed.

Lemma resolution_frame_refl s : resolution_frame s s.
Proof.
  repeat split. exists []. split; [now rewrite app_nil_r | constructor].
Qed.

Lemma resolution_frame_trans s s1 s2 :
  resolution_frame s s1 -> resolution_frame s1 s2 -> resolution_frame s s2.
Proof.
  intros (D1 & S1 & R1 & G1 & F1 & A1 & T1 & U1 & w1 & C1 & W1)
         (D2 & S2 & R2 & G2 & F2 & A2 & T2 & U2 & w2 & C2 & W2).
  repeat split; try congruence.
  exists (w1 ++ w2). split.
  - rewrite C2, C1, app_assoc. reflexivity.
  - apply Forall_app. now split.
Qed.

Lemma setItem_frame key v s : resolution_frame s (final (setItem key v s)).
Proof.
  unfold setItem. destruct (setItem_throws (localStorage s)) eqn:E;
    cbn [final]; [apply resolution_frame_refl|].
  repeat split; cbn; try congruence.
  eexists. split; [reflexivity|]. repeat constructor.
Qed.

(** However [assignVariant] ends, it has touched neither the page nor the
    collectors, and has put nothing but storage writes on record. *)
Lemma assignVariant_frame c testName s :
  resolution_frame s (final (assignVariant c testName s)).
Proof.
  unfold assignVariant, bind, getItem, tests_includes, get_state,
    set_variant, modify, math_random, ret, throw.
  repeat (match goal with
          | |- context [if ?b then _ else _] => destruct b eqn:?
          | |- context [match tests_lookup ?c ?n with _ => _ end] =>
              destruct (tests_lookup c n) eqn:?
          end; cbn [final]);
    try apply resolution_frame_refl.
  all: try match goal with
       | |- context [setItem ?k ?v ?s0] =>
           eapply resolution_frame_trans; [|apply (setItem_frame k v s0)]
       end.
  all: repeat split; exists []; split;
       [cbn; now rewrite app_nil_r | constructor].
Qed.

Lemma forEach_assign_frame c names s :
  resolution_frame s (final (forEach (assignVariant c) names s)).
Proof.
  revert s. induction names as [|n names IH]; intros s; simpl.
  - apply resolution_frame_refl.
  - unfold bind. pose proof (assignVariant_frame c n s) as H.
    destruct (assignVariant c n s) as [[] s1|e s1]; cbn [final] in H.
    + eapply resolution_frame_trans; [exact H | apply IH].
    + exact H.
Qed.

(** With a storage that neither read nor write throws on, [assignVariant]
    completes for a configured test. *)
Lemma assignVariant_completes c testName allowed s :
  obj_get testName (tests c) = Some allowed ->
  getItem_throws (localStorage s) = false ->
  setItem_throws (localStorage s) = false ->
  exists s', assignVariant c testName s = Return tt s'.
Proof.
  intros Hown Hg Hs. rewrite (assignVariant_closed_form _ _ _ _ Hown), Hg.
  destruct (resolution c testName allowed s) as [[] v]; cbv zeta;
    unfold setItem; cbn [localStorage with_variants with_draws];
    rewrite ?Hs; eauto.
Qed.

(** [handlePreviewMode] in closed form. *)
Lemma handlePreviewMode_closed_form c params s :
  handlePreviewMode c params s =
    if preview_throws c params then Throw TypeError s
    else if preview_valid c params then
      let testName := Js.to_string (params_get "ab_preview" params) in
      let variant := params_get "variant" params in
      if setItem_throws (localStorage s) then Throw StorageError s
      else
        let s1 := final (setItem (localStoragePrefix c +:+ testName)
                                 variant s) in
        let vs := obj_set testName variant (variants s1) in
        Return tt
          (with_document
             (with_indicator testName variant (applied vs (document s1)))
             (after_apply (with_variants vs s1)))
    else Return tt s.
Proof.
  unfold handlePreviewMode, preview_throws, preview_valid, bind, ret, throw.
  destruct (Js.truthy (params_get "ab_preview" params)
            && Js.truthy (params_get "variant" params)); cbn [andb];
    [|reflexivity].
  destruct (tests_lookup c _); try reflexivity.
  destruct (Js.includes allowed _); [|reflexivity].
  destruct (setItem_throws (localStorage s)) eqn:Hs;
    unfold setItem; rewrite Hs; [reflexivity|].
  cbn [final]. unfold set_variant, modify at 1.
  rewrite applyVariants_closed_form.
  unfold addPreviewIndicator, modify, with_indicator. reflexivity.
Qed.

Lemma trackImpressions_returns c s :
  exists s',
    trackImpressions c s = Return tt s' /\
    variants s' = variants s /\
    document s' = document s /\
    localStorage s' = localStorage s /\
    draws s' = draws s /\
    abTesting s' = abTesting s /\
    calls s' = calls s ++ (if analyticsEnabled c
                           then flat_map (impression (gtag s) (fbq s))
                                         (variants s)
                           else []) /\
    steps s' = steps s ++ (if analyticsEnabled c
                           then map (fun e => Reported (fst e) (snd e))
                                    (variants s)
                           else []).
Proof.
  rewrite trackImpressions_closed_form. eexists. split; [reflexivity|].
  destruct (analyticsEnabled c); cbn; rewrite ?app_nil_r; repeat split.
Qed.

(** C2. A stored variant that the test allows is kept as it is: for a
    configuration whose labels are not empty strings, as those of
    [AB_TEST_CONFIG] are, and a readable storage holding for a configured
    test a label [V] that the test allows, [assignVariant] resolves the
    test to [V] and changes nothing else: no random number is drawn and
    nothing is written to the storage. This holds without a URL override
    and with one. *)
Theorem stored_valid_variant_is_kept c testName allowed V s :
  nonempty_labels c ->
  obj_get testName (tests c) = Some allowed ->
  In V allowed ->
  getItem_throws (localStorage s) = false ->
  items (localStorage s) !! (localStoragePrefix c +:+ testName) = Some V ->
  exists s',
    assignVariant c testName s = Return tt s' /\
    s' = with_variants (obj_set testName (Js.Str V) (variants s)) s /\
    obj_get testName (variants s') = Some (Js.Str V) /\
    draws s' = draws s /\
    localStorage s' = localStorage s /\
    calls s' = calls s.
Proof.
  intros Hwf Hown HV Hget Hitem.
  assert (V <> "") as Hne.
  { intros ->. eapply Hwf; [eapply obj_get_In, Hown | exact HV]. }
  exists (with_variants (obj_set testName (Js.Str V) (variants s)) s).
  split; [|split; [reflexivity
                  |split; [apply obj_get_set_eq | repeat split]]].
  rewrite (assignVariant_closed_form c testName allowed s Hown), Hget.
  unfold resolution, stored. rewrite Hitem.
  assert (Js.truthy (Js.Str V) = true) as ->
    by (destruct V; [congruence | reflexivity]).
  assert (Js.includes allowed (Js.Str V) = true) as ->
    by (apply includes_In; eauto).
  reflexivity.
Qed.

Lemma AB_TEST_CONFIG_labels : nonempty_labels AB_TEST_CONFIG.
Proof.
  intros testName allowed [[= <- <-]|[[= <- <-]|[[= <- <-]|[]]]];
    simpl; intuition discriminate.
Qed.

Lemma stored_valid_variant_is_kept_witness :
  exists s',
    assignVariant AB_TEST_CONFIG "hero_headline"
      (page_load [("ab_test_hero_headline", "B")] false false
                 [("ab_hero_headline", "A")] (fun _ => 0%N) Accepts Absent)
    = Return tt s' /\
    s' = with_variants
           (obj_set "hero_headline" (Js.Str "B") [])
           (page_load [("ab_test_hero_headline", "B")] false false
              [("ab_hero_headline", "A")] (fun _ => 0%N) Accepts Absent) /\
    obj_get "hero_headline" (variants s') = Some (Js.Str "B") /\
    draws s' = 0%nat /\
    localStorage s' =
      {| items := list_to_map [("ab_test_hero_headline", "B")];
         getItem_throws := false; setItem_throws := false |} /\
    calls s' = [].
Proof.
  apply (stored_valid_variant_is_kept AB_TEST_CONFIG "hero_headline"
           ["A"; "B"] "B").
  - exact AB_TEST_CONFIG_labels.
  - reflexivity.
  - simpl. auto.
  - reflexivity.
  - reflexivity.
Defined.

(** The hypothesis on the labels is needed: the script tests the stored
    value for truthiness before membership, so an empty label, were one
    configured and stored, would be replaced by a fresh draw. *)
Example empty_label_is_drawn_again :
  exists s',
    assignVariant
      {| tests := [("layout", [""; "wide"])]; cookieExpiryDays := 30;
         localStoragePrefix := "ab_test_"; analyticsEnabled := true |}
      "layout"
      (page_load [("ab_test_layout", "")] false false []
                 (fun _ => (2 ^ 52)%N) Accepts Absent)
    = Return tt s' /\
    obj_get "layout" (variants s') = Some (Js.Str "wide") /\
    draws s' = 1%nat /\
    calls s' = [StorageSet "ab_test_layout" "wide"].
Proof. eexists. split; [vm_compute; reflexivity|]. repeat split. Qed.

Lemma constructor_preview c s :
  params_has "ab_preview" (search s) = true ->
  constructor c s = handlePreviewMode c (search s) (with_variants [] s).
Proof.
  intros H. unfold constructor, initialize, bind, modify, get_state.
  cbn [search with_variants]. now rewrite H.
Qed.

Lemma constructor_normal c s :
  params_has "ab_preview" (search s) = false ->
  constructor c s =
    match forEach (assignVariant c) (keys (tests c)) (with_variants [] s) with
    | Return _ s1 => trackImpressions c (after_apply s1)
    | Throw e s1 => Throw e s1
    end.
Proof.
  intros H. unfold constructor, initialize, modify, get_state.
  unfold bind at 1 2. cbn [search with_variants]. rewrite H.
  unfold bind at 1.
  destruct (forEach _ _ _) as [[] s1|e s1]; [|reflexivity].
  unfold bind. now rewrite applyVariants_closed_form.
Qed.

Lemma resolved_within_nil c : resolved_within c [].
Proof. intros k v. discriminate. Qed.

Lemma preview_valid_entry c params :
  preview_valid c params = true ->
  exists allowed label,
    obj_get (Js.to_string (params_get "ab_preview" params)) (tests c)
    = Some allowed /\
    params_get "variant" params = Js.Str label /\ In label allowed.
Proof.
  unfold preview_valid, tests_lookup. intros H.
  apply andb_prop in H as [_ H].
  destruct (obj_get _ (tests c)) as [allowed|].
  - apply includes_In in H as (label & E & Hl). eauto.
  - destruct (existsb _ _); discriminate.
Qed.

(** C1. Whenever the constructor completes, with at least one variant
    configured for every test, each entry of [this.variants] belongs to a
    configured test and holds one of the variants that test allows,
    whatever the storage held, the query string supplied or the random
    source produced; and on a load without preview parameter every
    configured test has such an entry. *)
Theorem resolved_variant_is_allowed c s s' :
  nonempty_variants c ->
  constructor c s = Return tt s' ->
  resolved_within c (variants s') /\
  (params_has "ab_preview" (search s) = false ->
   forall testName, In testName (keys (tests c)) ->
     exists v, obj_get testName (variants s') = Some v).
Proof.
  intros Hwf Hrun.
  destruct (params_has "ab_preview" (search s)) eqn:Hp.
  - split; [|discriminate].
    rewrite (constructor_preview _ _ Hp), handlePreviewMode_closed_form
      in Hrun.
    destruct (preview_throws c (search s)); [discriminate|].
    destruct (preview_valid c (search s)) eqn:Hv.
    + cbv zeta in Hrun. cbn [localStorage with_variants] in Hrun.
      destruct (setItem_throws (localStorage s)); [discriminate|].
      injection Hrun as <-. cbn [variants with_document with_variants].
      destruct (preview_valid_entry _ _ Hv) as (allowed & label & Ho & E & Hl).
      rewrite E. eapply resolved_within_set; eauto.
      unfold setItem. cbn [localStorage with_variants].
      destruct (setItem_throws (localStorage s)); cbn [final variants
        with_calls with_localStorage with_variants];
        apply resolved_within_nil.
    + injection Hrun as <-. apply resolved_within_nil.
  - rewrite (constructor_normal _ _ Hp) in Hrun.
    destruct (forEach _ _ _) as [[] s1|e s1] eqn:Hloop; [|discriminate].
    destruct (trackImpressions_returns c (after_apply s1))
      as (s2 & Htrack & Hvs & _).
    rewrite Htrack in Hrun. injection Hrun as <-.
    rewrite Hvs. cbn [variants after_apply with_steps with_document].
    destruct (assign_all_resolved c _ _ _ Hwf (fun n H => H) Hloop)
      as (_ & Hres & Hkeys).
    split.
    + apply Hres, resolved_within_nil.
    + intros _ n Hn. apply keys_obj_get, Hkeys. now left.
Qed.

Lemma resolved_variant_is_allowed_witness :
  exists allowed label,
    obj_get "cta_button_color" (tests AB_TEST_CONFIG) = Some allowed /\
    Js.Str "yellow" = Js.Str label /\ In label allowed.
Proof.
  refine (proj1 (resolved_variant_is_allowed AB_TEST_CONFIG
            (page_load [("ab_test_hero_headline", "B");
                        ("ab_test_cta_button_color", "green")]
                       false false [("ab_why_now_text", "A")]
                       (fun _ => (2 ^ 52)%N) Accepts Absent)
            (final (constructor AB_TEST_CONFIG
               (page_load [("ab_test_hero_headline", "B");
                           ("ab_test_cta_button_color", "green")]
                          false false [("ab_why_now_text", "A")]
                          (fun _ => (2 ^ 52)%N) Accepts Absent)))
            _ _) "cta_button_color" (Js.Str "yellow") _).
  - intros testName allowed [[= <- <-]|[[= <- <-]|[[= <- <-]|[]]]];
      discriminate.
  - vm_compute. reflexivity.
  - vm_compute. reflexivity.
Defined.




End Assignment.

(** ** Initialization: preview mode, impressions and storage failures *)

Section Initialization.

Import Browser Dom ABTesting.

Lemma preview_valid_not_throws c params :
  preview_valid c params = true -> preview_throws c params = false.
Proof.
  unfold preview_valid, preview_throws.
  destruct (Js.truthy _ && Js.truthy _); [|reflexivity].
  destruct (tests_lookup c _); cbn; congruence.
Qed.

Lemma applied_single testName variant doc :
  applied [(testName, variant)] doc = applyVariant testName variant doc.
Proof. reflexivity. Qed.

(** What the handler leaves when the preview parameters are rejected. *)
Lemma startup_invalid_preview c s :
  params_has "ab_preview" (search s) = true ->
  preview_valid c (search s) = false ->
  startup c s =
    if preview_throws c (search s)
    then with_calls
           (calls s ++ [ConsoleError "A/B Testing initialization error:"])
           (with_variants [] s)
    else with_abTesting true (with_variants [] s).
Proof.
  intros Hp Hv. unfold startup.
  rewrite (constructor_preview _ _ Hp), handlePreviewMode_closed_form, Hv.
  destruct (preview_throws c (search s)); reflexivity.
Qed.

(** C4, as stated, fails: a preview parameter that names no configured
    test does not let the load fall through to Normal mode. No configured
    test is resolved and no call at all is made. *)
Lemma invalid_preview_counterexample :
  params_has "ab_preview" [("ab_preview", "no_such_test"); ("variant", "A")]
  = true /\
  tests_lookup AB_TEST_CONFIG "no_such_test" = Missing /\
  variants (startup AB_TEST_CONFIG
              (page_load [] false false
                 [("ab_preview", "no_such_test"); ("variant", "A")]
                 (fun _ => 0%N) Accepts Accepts)) = [] /\
  calls (startup AB_TEST_CONFIG
           (page_load [] false false
              [("ab_preview", "no_such_test"); ("variant", "A")]
              (fun _ => 0%N) Accepts Accepts)) = [] /\
  document (startup AB_TEST_CONFIG
              (page_load [] false false
                 [("ab_preview", "no_such_test"); ("variant", "A")]
                 (fun _ => 0%N) Accepts Accepts)) = landing_page.
Proof. repeat split. Qed.

(** C4, amended. When the preview parameter is present but the pair it
    forms with the variant parameter is rejected (unknown test, variant
    outside the allowed set, or no variant), initialization stops there:
    no test is resolved, the page and the storage are left as they were,
    no random number is drawn, no preview choice is persisted, no
    indicator is rendered and no impression is made. The only call on
    record is the error the handler logs when the name is a member of
    [Object.prototype]. *)
Theorem invalid_preview_does_nothing c s :
  params_has "ab_preview" (search s) = true ->
  preview_valid c (search s) = false ->
  variants (startup c s) = [] /\
  document (startup c s) = document s /\
  localStorage (startup c s) = localStorage s /\
  draws (startup c s) = draws s /\
  calls (startup c s)
  = calls s ++ (if preview_throws c (search s)
                then [ConsoleError "A/B Testing initialization error:"]
                else []).
Proof.
  intros Hp Hv. rewrite (startup_invalid_preview _ _ Hp Hv).
  destruct (preview_throws c (search s)); cbn; rewrite ?app_nil_r;
    repeat split.
Qed.

Lemma invalid_preview_does_nothing_witness :
  variants (startup AB_TEST_CONFIG
              (page_load [("ab_test_why_now_text", "A")] false false
                 [("ab_preview", "hero_headline"); ("variant", "C")]
                 (fun _ => 0%N) Accepts Accepts)) = [] /\
  document (startup AB_TEST_CONFIG
              (page_load [("ab_test_why_now_text", "A")] false false
                 [("ab_preview", "hero_headline"); ("variant", "C")]
                 (fun _ => 0%N) Accepts Accepts)) = landing_page /\
  localStorage (startup AB_TEST_CONFIG
              (page_load [("ab_test_why_now_text", "A")] false false
                 [("ab_preview", "hero_headline"); ("variant", "C")]
                 (fun _ => 0%N) Accepts Accepts))
  = {| items := list_to_map [("ab_test_why_now_text", "A")];
       getItem_throws := false; setItem_throws := false |} /\
  draws (startup AB_TEST_CONFIG
              (page_load [("ab_test_why_now_text", "A")] false false
                 [("ab_preview", "hero_headline"); ("variant", "C")]
                 (fun _ => 0%N) Accepts Accepts)) = 0%nat /\
  calls (startup AB_TEST_CONFIG
              (page_load [("ab_test_why_now_text", "A")] false false
                 [("ab_preview", "hero_headline"); ("variant", "C")]
                 (fun _ => 0%N) Accepts Accepts))
  = [] ++ (if preview_throws AB_TEST_CONFIG
                [("ab_preview", "hero_headline"); ("variant", "C")]
           then [ConsoleError "A/B Testing initialization error:"]
           else []).
Proof.
  apply (invalid_preview_does_nothing AB_TEST_CONFIG
           (page_load [("ab_test_why_now_text", "A")] false false
              [("ab_preview", "hero_headline"); ("variant", "C")]
              (fun _ => 0%N) Accepts Accepts)).
  - reflexivity.
  - reflexivity.
Defined.

(** A member of [Object.prototype] as preview name: the constructor
    throws, the handler logs the error. *)
Example preview_of_inherited_name :
  calls (startup AB_TEST_CONFIG
           (page_load [] false false
              [("ab_preview", "constructor"); ("variant", "A")]
              (fun _ => 0%N) Accepts Accepts))
  = [ConsoleError "A/B Testing initialization error:"].
Proof. reflexivity. Qed.

(** C5, as stated, fails: a valid preview of [hero_headline] resolves
    that test only. The other configured tests get no variant, although
    Normal mode would have resolved them (here from the storage). *)
Lemma preview_counterexample :
  preview_valid AB_TEST_CONFIG
    [("ab_preview", "hero_headline"); ("variant", "B")] = true /\
  variants (startup AB_TEST_CONFIG
              (page_load [("ab_test_hero_headline", "A");
                          ("ab_test_why_now_text", "B")] false false
                 [("ab_preview", "hero_headline"); ("variant", "B")]
                 (fun _ => 0%N) Accepts Accepts))
  = [("hero_headline", Js.Str "B")] /\
  obj_get "why_now_text"
    (variants (startup AB_TEST_CONFIG
              (page_load [("ab_test_hero_headline", "A");
                          ("ab_test_why_now_text", "B")] false false
                 [("ab_preview", "hero_headline"); ("variant", "B")]
                 (fun _ => 0%N) Accepts Accepts))) = None /\
  obj_get "why_now_text"
    (variants (startup AB_TEST_CONFIG
              (page_load [("ab_test_hero_headline", "A");
                          ("ab_test_why_now_text", "B")] false false []
                 (fun _ => 0%N) Accepts Accepts))) = Some (Js.Str "B").
Proof.
  split; [reflexivity|]. split; [vm_compute; reflexivity|].
  split; vm_compute; reflexivity.
Qed.

(** C5, amended. On a valid preview of test [T] with variant [V], with a
    storage that accepts the write, [V] is persisted for [T], [T] is
    resolved to [V] whatever was stored for it, the variant of [T] is
    applied to the page and then the indicator is added. [T] is the only
    test resolved and applied, no random number is drawn and the only
    call made is the storage write: no impression is reported. *)
Theorem preview_forces_variant c s :
  params_has "ab_preview" (search s) = true ->
  preview_valid c (search s) = true ->
  setItem_throws (localStorage s) = false ->
  items (localStorage (startup c s))
    !! (localStoragePrefix c
        +:+ Js.to_string (params_get "ab_preview" (search s)))
  = Some (Js.to_string (params_get "variant" (search s))) /\
  variants (startup c s)
  = [(Js.to_string (params_get "ab_preview" (search s)),
      params_get "variant" (search s))] /\
  document (startup c s)
  = with_indicator (Js.to_string (params_get "ab_preview" (search s)))
      (params_get "variant" (search s))
      (applyVariant (Js.to_string (params_get "ab_preview" (search s)))
         (params_get "variant" (search s)) (document s)) /\
  calls (startup c s)
  = calls s ++ [StorageSet
                  (localStoragePrefix c
                   +:+ Js.to_string (params_get "ab_preview" (search s)))
                  (Js.to_string (params_get "variant" (search s)))] /\
  draws (startup c s) = draws s /\
  abTesting (startup c s) = true.
Proof.
  intros Hp Hv Hset. unfold startup.
  rewrite (constructor_preview _ _ Hp), handlePreviewMode_closed_form, Hv,
    (preview_valid_not_throws _ _ Hv).
  cbv zeta. cbn [localStorage with_variants]. rewrite Hset.
  unfold setItem. cbn [localStorage with_variants]. rewrite Hset.
  cbn. rewrite lookup_insert_eq. repeat split.
Qed.

Lemma preview_forces_variant_witness :
  items (localStorage (startup AB_TEST_CONFIG
           (page_load [("ab_test_why_now_text", "B")] false false
              [("ab_preview", "why_now_text"); ("variant", "A")]
              (fun _ => 0%N) Accepts Accepts)))
    !! ("ab_test_" +:+ "why_now_text") = Some "A" /\
  variants (startup AB_TEST_CONFIG
           (page_load [("ab_test_why_now_text", "B")] false false
              [("ab_preview", "why_now_text"); ("variant", "A")]
              (fun _ => 0%N) Accepts Accepts))
  = [("why_now_text", Js.Str "A")] /\
  document (startup AB_TEST_CONFIG
           (page_load [("ab_test_why_now_text", "B")] false false
              [("ab_preview", "why_now_text"); ("variant", "A")]
              (fun _ => 0%N) Accepts Accepts))
  = with_indicator "why_now_text" (Js.Str "A")
      (applyVariant "why_now_text" (Js.Str "A") landing_page) /\
  calls (startup AB_TEST_CONFIG
           (page_load [("ab_test_why_now_text", "B")] false false
              [("ab_preview", "why_now_text"); ("variant", "A")]
              (fun _ => 0%N) Accepts Accepts))
  = [] ++ [StorageSet ("ab_test_" +:+ "why_now_text") "A"] /\
  draws (startup AB_TEST_CONFIG
           (page_load [("ab_test_why_now_text", "B")] false false
              [("ab_preview", "why_now_text"); ("variant", "A")]
              (fun _ => 0%N) Accepts Accepts)) = 0%nat /\
  abTesting (startup AB_TEST_CONFIG
           (page_load [("ab_test_why_now_text", "B")] false false
              [("ab_preview", "why_now_text"); ("variant", "A")]
              (fun _ => 0%N) Accepts Accepts)) = true.
Proof.
  apply (preview_forces_variant AB_TEST_CONFIG
           (page_load [("ab_test_why_now_text", "B")] false false
              [("ab_preview", "why_now_text"); ("variant", "A")]
              (fun _ => 0%N) Accepts Accepts)).
  - reflexivity.
  - reflexivity.
  - reflexivity.
Defined.

Lemma keys_obj_set_new {A} k (v : A) o :
  ~ In k (keys o) -> keys (obj_set k v o) = keys o ++ [k].
Proof.
  induction o as [|[k' v'] o IH]; simpl; [reflexivity|].
  intros H. destruct (String.eqb_spec k k') as [->|Hne].
  - exfalso. apply H. now left.
  - simpl. f_equal. apply IH. intros Hin. apply H. now right.
Qed.

(** With a storage that does not throw, the loop of [initialize] resolves
    every configured test, in the order of the configuration. *)
Lemma assign_all_completes c names s :
  nonempty_variants c ->
  (forall n, In n names -> In n (keys (tests c))) ->
  NoDup (keys (variants s) ++ names) ->
  getItem_throws (localStorage s) = false ->
  setItem_throws (localStorage s) = false ->
  exists s1,
    forEach (assignVariant c) names s = Return tt s1 /\
    keys (variants s1) = keys (variants s) ++ names.
Proof.
  intros Hwf. revert s.
  induction names as [|n names IH]; intros s Hsub Hnd Hg Hs; simpl.
  - exists s. now rewrite app_nil_r.
  - destruct (keys_obj_get n (tests c) (Hsub n (or_introl eq_refl)))
      as [allowed Hown].
    destruct (assignVariant_completes _ _ _ _ Hown Hg Hs) as [s1 E1].
    assert (allowed <> []) as Hne
      by (eapply Hwf, obj_get_In; exact Hown).
    destruct (assignVariant_returns _ _ _ _ _ Hown Hne E1)
      as (label & _ & Hv & _).
    pose proof (assignVariant_frame c n s) as Hf. rewrite E1 in Hf.
    destruct Hf as (_ & _ & _ & _ & _ & _ & Hg1 & Hs1 & _).
    cbn [final] in Hg1, Hs1.
    assert (keys (variants s1) = keys (variants s) ++ [n]) as Hk.
    { rewrite Hv. apply keys_obj_set_new.
      apply NoDup_app in Hnd as (_ & Hdis & _).
      intros Hin. apply (Hdis n); [now apply list_elem_of_In|].
      apply list_elem_of_In. now left. }
    destruct (IH s1) as (s2 & E2 & Hk2).
    + intros m Hm. apply Hsub. now right.
    + rewrite Hk, <- app_assoc. exact Hnd.
    + congruence.
    + congruence.
    + exists s2. unfold bind. rewrite E1. split; [exact E2|].
      rewrite Hk2, Hk, <- app_assoc. reflexivity.
Qed.

Lemma AB_TEST_CONFIG_nonempty : nonempty_variants AB_TEST_CONFIG.
Proof.
  intros testName allowed [[= <- <-]|[[= <- <-]|[[= <- <-]|[]]]];
    discriminate.
Qed.

Lemma AB_TEST_CONFIG_keys_NoDup : NoDup (keys (tests AB_TEST_CONFIG)).
Proof. apply (bool_decide_unpack _). vm_compute. exact I. Qed.

(** C6, as stated, fails: a load in preview mode reports no impression.
    The only call it makes is the write of the forced choice. *)
Lemma impressions_counterexample :
  calls (startup AB_TEST_CONFIG
           (page_load [] false false
              [("ab_preview", "hero_headline"); ("variant", "B")]
              (fun _ => 0%N) Accepts Accepts))
  = [StorageSet "ab_test_hero_headline" "B"].
Proof. vm_compute. reflexivity. Qed.

(** Resolving variants neither applies nor reports anything. *)
Lemma assignVariant_steps c testName s :
  steps (final (assignVariant c testName s)) = steps s.
Proof.
  unfold assignVariant, bind, getItem, tests_includes, get_state,
    set_variant, modify, math_random, setItem, ret, throw.
  repeat (match goal with
          | |- context [if ?b then _ else _] => destruct b eqn:?
          | |- context [match tests_lookup ?c ?n with _ => _ end] =>
              destruct (tests_lookup c n) eqn:?
          end; cbn [final steps with_variants with_draws with_calls
                    with_localStorage localStorage]);
    reflexivity.
Qed.

Lemma forEach_assign_steps c names s :
  steps (final (forEach (assignVariant c) names s)) = steps s.
Proof.
  revert s. induction names as [|n names IH]; intros s; simpl;
    [reflexivity|].
  unfold bind. pose proof (assignVariant_steps c n s) as H.
  destruct (assignVariant c n s) as [[] s1|e s1]; cbn [final] in H.
  - now rewrite IH.
  - exact H.
Qed.

(** C6, amended. On a load without preview parameter, with reporting
    enabled and a storage that does not throw, the constructor first
    resolves every configured test (one entry of [this.variants] per
    test, in configuration order, each an allowed variant, with nothing
    but storage writes on record), then applies every resolved variant to
    the page, and only then reports the impressions: one group of calls
    per entry, carrying the name of the test and its resolved variant,
    after the storage writes; and in the order of the steps taken, every
    application comes before the first report. On a load with the
    preview parameter no impression is reported: whatever is put on
    record is a storage write, and every step taken is an
    application. *)
Theorem impressions_after_resolution c s :
  nonempty_variants c ->
  NoDup (keys (tests c)) ->
  (params_has "ab_preview" (search s) = false ->
   analyticsEnabled c = true ->
   getItem_throws (localStorage s) = false ->
   setItem_throws (localStorage s) = false ->
   exists s1 s',
     forEach (assignVariant c) (keys (tests c)) (with_variants [] s)
     = Return tt s1 /\
     keys (variants s1) = keys (tests c) /\
     resolved_within c (variants s1) /\
     (exists writes, calls s1 = calls s ++ writes /\ Forall is_write writes) /\
     constructor c s = Return tt s' /\
     variants s' = variants s1 /\
     document s' = applied (variants s1) (document s) /\
     calls s' = calls s1 ++ flat_map (impression (gtag s) (fbq s))
                                     (variants s1) /\
     steps s' = steps s
                ++ map (fun e => Applied (fst e) (snd e)) (variants s1)
                ++ map (fun e => Reported (fst e) (snd e)) (variants s1)) /\
  (params_has "ab_preview" (search s) = true ->
   (exists writes,
      calls (final (constructor c s)) = calls s ++ writes /\
      Forall is_write writes) /\
   (exists done,
      steps (final (constructor c s)) = steps s ++ done /\
      Forall is_applied done)).
Proof.
  intros Hwf Hnd. split.
  - intros Hp Hen Hg Hs.
    destruct (assign_all_completes c (keys (tests c)) (with_variants [] s)
                Hwf (fun n H => H) Hnd Hg Hs) as (s1 & Hloop & Hkeys).
    destruct (assign_all_resolved c _ _ _ Hwf (fun n H => H) Hloop)
      as (_ & Hres & _).
    pose proof (forEach_assign_frame c (keys (tests c)) (with_variants [] s))
      as Hf.
    pose proof (forEach_assign_steps c (keys (tests c)) (with_variants [] s))
      as Hst.
    rewrite Hloop in Hf, Hst. cbn [final] in Hf, Hst.
    destruct Hf as (Hdoc & _ & _ & Hgt & Hfb & _ & _ & _ & Hw).
    cbn [document gtag fbq calls steps with_variants] in Hdoc, Hgt, Hfb, Hw,
      Hst.
    rewrite (constructor_normal _ _ Hp), Hloop.
    destruct (trackImpressions_returns c (after_apply s1))
      as (s' & Htrack & Hvs & Hd & _ & _ & _ & Hcalls & Hsteps).
    rewrite Hen in Hcalls, Hsteps.
    cbn [variants document calls steps gtag fbq after_apply with_steps
         with_document] in Hvs, Hd, Hcalls, Hsteps.
    exists s1, s'. repeat split; try assumption.
    + apply Hres, resolved_within_nil.
    + congruence.
    + congruence.
    + rewrite Hsteps, Hst, <- app_assoc. reflexivity.
  - intros Hp.
    rewrite (constructor_preview _ _ Hp), handlePreviewMode_closed_form.
    destruct (preview_throws c (search s)).
    { split; exists []; cbn; rewrite app_nil_r; split; constructor. }
    destruct (preview_valid c (search s)).
    2: { split; exists []; cbn; rewrite app_nil_r; split; constructor. }
    cbv zeta. cbn [localStorage with_variants].
    destruct (setItem_throws (localStorage s)) eqn:Hs.
    { split; exists []; cbn; rewrite app_nil_r; split; constructor. }
    unfold setItem. cbn [localStorage with_variants]. rewrite Hs.
    split; eexists; (split; [cbn; reflexivity|]); repeat constructor.
Qed.

Lemma impressions_after_resolution_witness :
  exists s',
    constructor AB_TEST_CONFIG
      (page_load [("ab_test_hero_headline", "B")] false false []
                 (fun _ => 0%N) Accepts Throws)
    = Return tt s' /\
    calls s'
    = [ StorageSet "ab_test_why_now_text" "A";
        StorageSet "ab_test_cta_button_color" "blue";
        gtag_impression "hero_headline" (Js.Str "B");
        fbq_impression "hero_headline" (Js.Str "B");
        ConsoleError "Meta Pixel tracking error:";
        log_impression "hero_headline" (Js.Str "B");
        gtag_impression "why_now_text" (Js.Str "A");
        fbq_impression "why_now_text" (Js.Str "A");
        ConsoleError "Meta Pixel tracking error:";
        log_impression "why_now_text" (Js.Str "A");
        gtag_impression "cta_button_color" (Js.Str "blue");
        fbq_impression "cta_button_color" (Js.Str "blue");
        ConsoleError "Meta Pixel tracking error:";
        log_impression "cta_button_color" (Js.Str "blue") ] /\
    steps s'
    = [ Applied "hero_headline" (Js.Str "B");
        Applied "why_now_text" (Js.Str "A");
        Applied "cta_button_color" (Js.Str "blue");
        Reported "hero_headline" (Js.Str "B");
        Reported "why_now_text" (Js.Str "A");
        Reported "cta_button_color" (Js.Str "blue") ].
Proof.
  destruct (proj1 (impressions_after_resolution AB_TEST_CONFIG
              (page_load [("ab_test_hero_headline", "B")] false false []
                         (fun _ => 0%N) Accepts Throws)
              AB_TEST_CONFIG_nonempty AB_TEST_CONFIG_keys_NoDup)
            eq_refl eq_refl eq_refl eq_refl)
    as (s1 & s' & _ & _ & _ & _ & Hrun & _).
  exists s'. split; [exact Hrun|].
  revert Hrun. vm_compute. intros [= <-]. split; reflexivity.
Defined.

(** When the constructor throws, it has touched neither the page nor
    the collectors. *)
Lemma constructor_throw_frame c s e s1 :
  constructor c s = Throw e s1 -> resolution_frame s s1.
Proof.
  destruct (params_has "ab_preview" (search s)) eqn:Hp.
  - rewrite (constructor_preview _ _ Hp), handlePreviewMode_closed_form.
    assert (resolution_frame s (with_variants [] s)) as Hf.
    { repeat split. exists []. cbn. rewrite app_nil_r.
      split; [reflexivity | constructor]. }
    destruct (preview_throws c (search s)); [now intros [= <- <-]|].
    destruct (preview_valid c (search s)); [|discriminate].
    cbv zeta. cbn [localStorage with_variants].
    destruct (setItem_throws (localStorage s)); [|discriminate].
    now intros [= <- <-].
  - rewrite (constructor_normal _ _ Hp).
    pose proof (forEach_assign_frame c (keys (tests c)) (with_variants [] s))
      as Hf.
    destruct (forEach _ _ _) as [[] s2|e2 s2].
    + rewrite trackImpressions_closed_form. discriminate.
    + intros [= <- <-]. exact Hf.
Qed.

(** C7, as stated, fails: when reading the storage throws, no test is
    resolved by a random draw; the handler logs the exception, and
    nothing is applied to the page or reported. *)
Lemma storage_failure_counterexample :
  getItem_throws
    (localStorage (page_load [] true true [] (fun _ => 0%N) Accepts Accepts))
  = true /\
  variants (startup AB_TEST_CONFIG
              (page_load [] true true [] (fun _ => 0%N) Accepts Accepts))
  = [] /\
  draws (startup AB_TEST_CONFIG
           (page_load [] true true [] (fun _ => 0%N) Accepts Accepts))
  = 0%nat /\
  document (startup AB_TEST_CONFIG
              (page_load [] true true [] (fun _ => 0%N) Accepts Accepts))
  = landing_page /\
  calls (startup AB_TEST_CONFIG
           (page_load [] true true [] (fun _ => 0%N) Accepts Accepts))
  = [ConsoleError "A/B Testing initialization error:"].
Proof. repeat split. Qed.

Lemma resolution_from_storage c testName allowed s :
  fst (resolution c testName allowed s) = FromStorage ->
  resolution c testName allowed s = (FromStorage, stored c testName s).
Proof.
  unfold resolution.
  destruct (Js.truthy _ && Js.includes allowed (stored c testName s));
    [reflexivity|].
  destruct (params_has _ _ && Js.includes allowed _); discriminate.
Qed.

(** When writes throw, the loop of [initialize] keeps the stored variants
    of the tests that have a valid one, and stops at the first test that
    has none: the variant found for it is recorded in [this.variants],
    and the write that follows throws. *)
Lemma assign_all_write_throws c pre testName post allowed s vs :
  getItem_throws (localStorage s) = false ->
  setItem_throws (localStorage s) = true ->
  (forall t, In t pre ->
     exists a, obj_get t (tests c) = Some a /\
               fst (resolution c t a s) = FromStorage) ->
  obj_get testName (tests c) = Some allowed ->
  fst (resolution c testName allowed s) <> FromStorage ->
  forEach (assignVariant c) (pre ++ testName :: post) (with_variants vs s)
  = Throw StorageError
      (with_variants
         (obj_set testName (snd (resolution c testName allowed s))
            (fold_left (fun vs' t => obj_set t (stored c t s) vs') pre vs))
         (with_draws
            (match fst (resolution c testName allowed s) with
             | FromDraw => S (draws s)
             | _ => draws s
             end) s)).
Proof.
  intros Hg Hs Hpre Hown Hsrc. revert vs.
  induction pre as [|t pre IH]; intros vs; cbn [app forEach fold_left];
    unfold bind.
  - rewrite (assignVariant_closed_form _ _ _ _ Hown).
    cbn [localStorage with_variants]. rewrite Hg.
    change (resolution c testName allowed (with_variants vs s))
      with (resolution c testName allowed s).
    destruct (resolution c testName allowed s) as [src v].
    cbn [fst snd] in *. unfold setItem.
    destruct src; [congruence| |];
      cbv zeta; cbn [localStorage with_variants with_draws];
      rewrite Hs; reflexivity.
  - destruct (Hpre t (or_introl eq_refl)) as (a & Ha & Hsrc_t).
    rewrite (assignVariant_closed_form _ _ _ _ Ha).
    cbn [localStorage with_variants]. rewrite Hg.
    change (resolution c t a (with_variants vs s))
      with (resolution c t a s).
    rewrite (resolution_from_storage _ _ _ _ Hsrc_t). cbv zeta.
    apply (IH (fun t' Ht' => Hpre t' (or_intror Ht'))).
Qed.

(** C7, amended. [assignVariant] does not handle a storage that throws.
    On a load without preview parameter the exception leaves the
    constructor at the first configured test when reads throw, with no
    test resolved. When only writes throw, it leaves the constructor at
    the first test that has no valid stored variant: the tests before it
    keep their stored variants, the variant found for that test is
    recorded in [this.variants], and no later test is looked at. On a
    valid preview it leaves the constructor when the write of the forced
    choice throws. Whenever an exception leaves the constructor, the
    [DOMContentLoaded] handler catches it and logs it, so the failure is
    not fatal for the page; but the page is as it was (no variant
    applied), no impression is on record (only storage writes and the
    logged error), and [window.abTesting] is not assigned. *)
Theorem storage_failure_aborts_initialization c s :
  (getItem_throws (localStorage s) = true ->
   params_has "ab_preview" (search s) = false ->
   tests c <> [] ->
   constructor c s = Throw StorageError (with_variants [] s)) /\
  (getItem_throws (localStorage s) = false ->
   setItem_throws (localStorage s) = true ->
   params_has "ab_preview" (search s) = false ->
   forall pre testName post allowed,
     keys (tests c) = pre ++ testName :: post ->
     (forall t, In t pre ->
        exists a, obj_get t (tests c) = Some a /\
                  fst (resolution c t a s) = FromStorage) ->
     obj_get testName (tests c) = Some allowed ->
     fst (resolution c testName allowed s) <> FromStorage ->
     constructor c s
     = Throw StorageError
         (with_variants
            (obj_set testName (snd (resolution c testName allowed s))
               (kept_variants c s pre))
            (with_draws
               (match fst (resolution c testName allowed s) with
                | FromDraw => S (draws s)
                | _ => draws s
                end) s))) /\
  (setItem_throws (localStorage s) = true ->
   params_has "ab_preview" (search s) = true ->
   preview_valid c (search s) = true ->
   constructor c s = Throw StorageError (with_variants [] s)) /\
  (forall e s1,
     constructor c s = Throw e s1 ->
     document (startup c s) = document s /\
     abTesting (startup c s) = abTesting s /\
     exists writes,
       Forall is_write writes /\
       calls (startup c s)
       = calls s ++ writes
         ++ [ConsoleError "A/B Testing initialization error:"]).
Proof.
  split; [|split; [|split]].
  - intros Hg Hp Hne. rewrite (constructor_normal _ _ Hp).
    destruct (tests c) as [|[k allowed] rest] eqn:Ht; [congruence|].
    cbn [keys map fst forEach]. unfold bind.
    rewrite (assignVariant_closed_form c k allowed).
    + cbn [localStorage with_variants]. rewrite Hg. reflexivity.
    + rewrite Ht. simpl. now rewrite String.eqb_refl.
  - intros Hg Hs Hp pre n post allowed Hkeys Hpre Hown Hsrc.
    rewrite (constructor_normal _ _ Hp), Hkeys.
    rewrite (assign_all_write_throws c pre n post allowed s []
               Hg Hs Hpre Hown Hsrc).
    reflexivity.
  - intros Hs Hp Hv.
    rewrite (constructor_preview _ _ Hp), handlePreviewMode_closed_form, Hv,
      (preview_valid_not_throws _ _ Hv).
    cbv zeta. cbn [localStorage with_variants]. now rewrite Hs.
  - intros e s1 Hthrow.
    destruct (constructor_throw_frame _ _ _ _ Hthrow)
      as (Hd & _ & _ & _ & _ & Ha & _ & _ & writes & Hc & Hw).
    unfold startup. rewrite Hthrow. cbn [document abTesting calls with_calls].
    split; [exact Hd|]. split; [exact Ha|].
    exists writes. split; [exact Hw|]. rewrite Hc, <- app_assoc. reflexivity.
Qed.

(** Writes throw and only the first test has a valid stored variant: the
    second test is drawn and recorded, its write throws, the third test
    is not looked at. *)
Lemma storage_failure_aborts_initialization_witness :
  constructor AB_TEST_CONFIG
    (page_load [("ab_test_hero_headline", "B")] false true []
               (fun _ => (2 ^ 52)%N) Accepts Accepts)
  = Throw StorageError
      (with_variants
         [("hero_headline", Js.Str "B"); ("why_now_text", Js.Str "B")]
         (with_draws 1
            (page_load [("ab_test_hero_headline", "B")] false true []
                       (fun _ => (2 ^ 52)%N) Accepts Accepts))).
Proof.
  apply (proj1 (proj2 (storage_failure_aborts_initialization AB_TEST_CONFIG
                  (page_load [("ab_test_hero_headline", "B")] false true []
                             (fun _ => (2 ^ 52)%N) Accepts Accepts)))
           eq_refl eq_refl eq_refl
           ["hero_headline"] "why_now_text" ["cta_button_color"]
           ["A"; "B"]).
  - reflexivity.
  - intros t [<-|[]]. exists ["A"; "B"]. split; reflexivity.
  - reflexivity.
  - vm_compute. discriminate.
Defined.

(** A storage whose writes throw, on a first visit: the first test is
    drawn, the write of the drawn variant throws, and the load ends like
    the one above. *)
Example setItem_failure_aborts_initialization :
  document (startup AB_TEST_CONFIG
              (page_load [] false true [] (fun _ => 0%N) Accepts Accepts))
  = landing_page /\
  calls (startup AB_TEST_CONFIG
           (page_load [] false true [] (fun _ => 0%N) Accepts Accepts))
  = [ConsoleError "A/B Testing initialization error:"] /\
  abTesting (startup AB_TEST_CONFIG
              (page_load [] false true [] (fun _ => 0%N) Accepts Accepts))
  = false.
Proof. repeat split. Qed.

(** Reads throw: the constructor throws at the first test. *)
Example read_failure_stops_at_first_test :
  constructor AB_TEST_CONFIG
    (page_load [("ab_test_hero_headline", "B")] true false []
               (fun _ => 0%N) Accepts Accepts)
  = Throw StorageError
      (with_variants []
         (page_load [("ab_test_hero_headline", "B")] true false []
                    (fun _ => 0%N) Accepts Accepts)).
Proof. reflexivity. Qed.

End Initialization.

(** ** Applying a variant twice *)

Section Application.

Import Dom ABTesting.

Lemma update_first_Element p f d kids :
  update_first p f (Element d kids)
  = if p d then Some (f d kids)
    else option_map (Element d) (update_first_in p f kids).
Proof.
  simpl. destruct (p d); [reflexivity|]. f_equal.
  induction kids as [|k ks IH]; simpl; [reflexivity|].
  destruct (update_first p f k); [reflexivity|]. now rewrite IH.
Qed.

Lemma count_Element p d kids :
  count p (Element d kids) = ((if p d then 1 else 0) + count_in p kids)%nat.
Proof. reflexivity. Qed.

Lemma count_in_cons p k ks :
  count_in p (k :: ks) = (count p k + count_in p ks)%nat.
Proof. reflexivity. Qed.

Section UpdateFirst.

Variable p : element_data -> bool.
Variable f : element_data -> list node -> node.

(** The lookup finds an element exactly when one satisfies the
    selector. *)
Lemma update_first_None n : update_first p f n = None <-> count p n = 0%nat.
Proof.
  induction n as [s|d kids IH] using node_ind'; [easy|].
  rewrite update_first_Element, count_Element.
  destruct (p d); [split; [discriminate | lia]|].
  cbn [Nat.add].
  assert (update_first_in p f kids = None <-> count_in p kids = 0%nat) as H.
  { induction IH as [|k ks Hk _ IHks]; [easy|].
    rewrite count_in_cons. cbn [update_first_in].
    destruct (update_first p f k) eqn:E.
    - split; [discriminate|]. intros H.
      assert (count p k = 0%nat) as H0 by lia.
      apply Hk in H0. discriminate.
    - assert (count p k = 0%nat) as -> by now apply Hk.
      destruct (update_first_in p f ks); cbn [option_map Nat.add].
      + split; [discriminate|]. intros H. apply IHks in H. discriminate.
      + split; [intros _; now apply IHks | reflexivity]. }
  destruct (update_first_in p f kids); cbn [option_map].
  - split; [discriminate|]. intros H0. apply H in H0. discriminate.
  - split; [intros _; now apply H | reflexivity].
Qed.


(** The step of the two inductions over siblings below. *)
Lemma update_first_in_cons k ks l' :
  update_first_in p f (k :: ks) = Some l' ->
  (exists k', update_first p f k = Some k' /\ l' = k' :: ks) \/
  (exists ks', update_first p f k = None /\
               update_first_in p f ks = Some ks' /\ l' = k :: ks').
Proof.
  cbn [update_first_in]. destruct (update_first p f k) as [k'|].
  - intros [= <-]. left. eauto.
  - destruct (update_first_in p f ks) as [ks'|]; [|discriminate].
    intros [= <-]. right. eauto.
Qed.

(** When the mutation keeps the element selected and is idempotent on it,
    the lookup finds the same element again and the second mutation
    changes nothing. *)
Hypothesis f_stable : forall d kids,
  p d = true ->
  exists d' kids',
    f d kids = Element d' kids' /\ p d' = true /\
    f d' kids' = Element d' kids'.

Lemma update_first_idem n n' :
  update_first p f n = Some n' -> update_first p f n' = Some n'.
Proof.
  revert n'. induction n as [s|d kids IH] using node_ind'; [discriminate|].
  intros n'. rewrite update_first_Element.
  destruct (p d) eqn:Hp.
  - intros [= <-].
    destruct (f_stable d kids Hp) as (d' & kids' & E & Hp' & E').
    rewrite E, update_first_Element, Hp', E'. reflexivity.
  - destruct (update_first_in p f kids) as [kids'|] eqn:Hk; [|discriminate].
    intros [= <-]. rewrite update_first_Element, Hp.
    enough (update_first_in p f kids' = Some kids') as -> by reflexivity.
    clear Hp. revert kids' Hk.
    induction IH as [|k ks Hk0 _ IHks]; intros kids' Hk; [discriminate|].
    apply update_first_in_cons in Hk
      as [(k' & E & ->)|(ks' & E & Eks & ->)]; cbn [update_first_in].
    + now rewrite (Hk0 _ E).
    + now rewrite E, (IHks _ Eks).
Qed.

Lemma update_first_in_idem l l' :
  update_first_in p f l = Some l' -> update_first_in p f l' = Some l'.
Proof.
  revert l'. induction l as [|k ks IH]; intros l' H; [discriminate|].
  apply update_first_in_cons in H
    as [(k' & E & ->)|(ks' & E & Eks & ->)]; cbn [update_first_in].
  - now rewrite (update_first_idem _ _ E).
  - now rewrite E, (IH _ Eks).
Qed.

End UpdateFirst.

(** *** Mutations of one element *)

Lemma setAttribute_idem name value d :
  setAttribute name value (setAttribute name value d)
  = setAttribute name value d.
Proof.
  unfold setAttribute. cbn [tag attrs classList style].
  now rewrite insert_insert_eq.
Qed.

Lemma setAttribute_id name value d :
  attrs d !! name = Some value -> setAttribute name value d = d.
Proof.
  intros H. unfold setAttribute. rewrite (insert_id _ _ _ H). now destruct d.
Qed.

Lemma has_id_setAttribute id name value d :
  name <> "id" ->
  has_id id (setAttribute name value d) = has_id id d.
Proof.
  intros H. unfold has_id, setAttribute. cbn [attrs].
  now rewrite lookup_insert_ne.
Qed.

Lemma token_swap_idem off on l :
  off <> on -> token_swap off on (token_swap off on l) = token_swap off on l.
Proof.
  intros Hne. unfold token_swap.
  set (l1 := filter (λ c, c ≠ off) l).
  assert (filter (λ c, c ≠ off) l1 = l1) as Hl1.
  { unfold l1. clear. induction l as [|x l IH]; [reflexivity|].
    rewrite filter_cons. destruct (decide (x ≠ off)); [|exact IH].
    rewrite filter_cons. destruct (decide (x ≠ off)); [|contradiction].
    now rewrite IH. }
  destruct (bool_decide (on ∈ l1)) eqn:E.
  - rewrite Hl1, E. reflexivity.
  - rewrite filter_app, Hl1, filter_cons, filter_nil.
    destruct (decide (on ≠ off)) as [_|Hn];
      [|exfalso; apply Hn; congruence].
    rewrite bool_decide_eq_true_2; [reflexivity|].
    apply elem_of_app. right. now apply list_elem_of_singleton.
Qed.

Lemma element_data_eq d1 d2 :
  tag d1 = tag d2 -> attrs d1 = attrs d2 ->
  classList d1 = classList d2 -> style d1 = style d2 -> d1 = d2.
Proof. destruct d1, d2. cbn. now intros -> -> -> ->. Qed.

Lemma cta_button_tag variant d : tag (cta_button variant d) = tag d.
Proof. unfold cta_button. now destruct (strict_eq variant "yellow"). Qed.

Lemma cta_button_attrs variant d :
  attrs (cta_button variant d)
  = <["data-variant" := Js.to_string variant]> (attrs d).
Proof. unfold cta_button. now destruct (strict_eq variant "yellow"). Qed.

Lemma cta_button_classList variant d :
  classList (cta_button variant d)
  = if strict_eq variant "yellow"
    then token_swap "btn--primary" "btn--yellow" (classList d)
    else token_swap "btn--yellow" "btn--primary" (classList d).
Proof. unfold cta_button. now destruct (strict_eq variant "yellow"). Qed.

Lemma cta_button_style variant d :
  style (cta_button variant d)
  = if strict_eq variant "yellow"
    then <["color" := "#000"]> (<["background" := "#F2C526"]> (style d))
    else delete "color" (delete "background" (style d)).
Proof. unfold cta_button. now destruct (strict_eq variant "yellow"). Qed.

Lemma cta_button_idem variant d :
  cta_button variant (cta_button variant d) = cta_button variant d.
Proof.
  apply element_data_eq.
  - now rewrite !cta_button_tag.
  - rewrite !cta_button_attrs. apply insert_insert_eq.
  - rewrite !cta_button_classList.
    destruct (strict_eq variant "yellow");
      now apply token_swap_idem.
  - rewrite !cta_button_style.
    destruct (strict_eq variant "yellow"); apply map_eq; intros k.
    + destruct (decide (k = "color")) as [->|?];
        [now rewrite !lookup_insert_eq|].
      rewrite !(lookup_insert_ne _ "color") by congruence.
      destruct (decide (k = "background")) as [->|?];
        [now rewrite !lookup_insert_eq|].
      rewrite !lookup_insert_ne by congruence. reflexivity.
    + destruct (decide (k = "color")) as [->|?];
        [now rewrite !lookup_delete_eq|].
      rewrite !(lookup_delete_ne _ "color") by congruence.
      destruct (decide (k = "background")) as [->|?];
        [now rewrite !lookup_delete_eq|].
      rewrite !lookup_delete_ne by congruence. reflexivity.
Qed.

Lemma cta_button_has_attr variant d :
  has_attr "data-cta-id" (cta_button variant d) = has_attr "data-cta-id" d.
Proof.
  unfold has_attr.
  rewrite cta_button_attrs. now rewrite lookup_insert_ne.
Qed.

(** *** The three tests *)

Lemma update_all_idem p g :
  (forall d, p (g d) = p d) ->
  (forall d, g (g d) = g d) ->
  forall n, update_all p g (update_all p g n) = update_all p g n.
Proof.
  intros Hp Hg n. induction n as [s|d kids IH] using node_ind';
    [reflexivity|].
  cbn [update_all]. f_equal.
  - destruct (p d) eqn:E; [now rewrite Hp, E, Hg | now rewrite E].
  - rewrite map_map. induction IH as [|k ks Hk _ IHks]; [reflexivity|].
    cbn [map]. now rewrite Hk, IHks.
Qed.

Lemma applyCtaButtonColorVariant_idem variant doc :
  applyCtaButtonColorVariant variant (applyCtaButtonColorVariant variant doc)
  = applyCtaButtonColorVariant variant doc.
Proof.
  unfold applyCtaButtonColorVariant. rewrite map_map.
  apply map_ext. intros n. apply update_all_idem.
  - apply cta_button_has_attr.
  - apply cta_button_idem.
Qed.

Lemma applyHeroHeadlineVariant_idem variant doc :
  applyHeroHeadlineVariant variant (applyHeroHeadlineVariant variant doc)
  = applyHeroHeadlineVariant variant doc.
Proof.
  unfold applyHeroHeadlineVariant.
  set (on_title := fun (t : element_data) (_ : list node) =>
         Element t (if strict_eq variant "B" then hero_title_B
                    else hero_title_A)).
  set (on_hero := fun (d : element_data) (kids : list node) =>
         match update_first_in (has_class "hero__title") on_title kids with
         | Some kids' =>
             Element (setAttribute "data-variant" (Js.to_string variant) d)
                     kids'
         | None =>
             Element (setAttribute "data-variant" (Js.to_string variant) d)
                     kids
         end).
  assert (forall t kids0,
            has_class "hero__title" t = true ->
            exists t' kids0',
              on_title t kids0 = Element t' kids0' /\
              has_class "hero__title" t' = true /\
              on_title t' kids0' = Element t' kids0') as Htitle.
  { intros t kids0 Ht. eexists t, _. repeat split. exact Ht. }
  assert (forall d kids,
            has_id "hero" d = true ->
            exists d' kids',
              on_hero d kids = Element d' kids' /\
              has_id "hero" d' = true /\
              on_hero d' kids' = Element d' kids') as Hhero.
  { intros d kids Hd.
    exists (setAttribute "data-variant" (Js.to_string variant) d).
    unfold on_hero.
    destruct (update_first_in (has_class "hero__title") on_title kids)
      as [kids'|] eqn:Ek.
    - exists kids'. split; [reflexivity|]. split.
      + rewrite has_id_setAttribute by discriminate. exact Hd.
      + rewrite (update_first_in_idem _ _ Htitle _ _ Ek), setAttribute_idem.
        reflexivity.
    - exists kids. split; [reflexivity|]. split.
      + rewrite has_id_setAttribute by discriminate. exact Hd.
      + rewrite Ek, setAttribute_idem. reflexivity. }
  destruct (update_first_in (has_id "hero") on_hero doc) as [doc'|] eqn:E;
    [|now rewrite E].
  now rewrite (update_first_in_idem _ _ Hhero _ _ E).
Qed.

(** *** The why-now test: two lookups in a row *)

Lemma count_mono p q n :
  (forall d, q d = true -> p d = true) -> (count q n <= count p n)%nat.
Proof.
  intros H. induction n as [s|d kids IH] using node_ind'; [reflexivity|].
  rewrite !count_Element.
  assert (count_in q kids <= count_in p kids)%nat as Hk.
  { induction IH as [|k ks Hk _ IHks]; [reflexivity|].
    rewrite !count_in_cons. lia. }
  specialize (H d).
  destruct (q d), (p d); first [lia | discriminate (H eq_refl)].
Qed.

Lemma count_in_mono p q l :
  (forall d, q d = true -> p d = true) -> (count_in q l <= count_in p l)%nat.
Proof.
  intros H. induction l as [|k ks IH]; [reflexivity|].
  rewrite !count_in_cons. pose proof (count_mono p q k H). lia.
Qed.

Section WhyNow.

Variable variant : Js.value.

Let on_section (d : element_data) (kids : list node) : node :=
  Element (setAttribute "data-variant" (Js.to_string variant) d) kids.

Let on_urgency (d : element_data) (_ : list node) : node :=
  Element d [Text (if strict_eq variant "B" then why_now_B else why_now_A)].

Lemma stale_setAttribute d :
  stale variant (setAttribute "data-variant" (Js.to_string variant) d)
  = false.
Proof.
  unfold stale, setAttribute. cbn [attrs].
  rewrite lookup_insert_eq, bool_decide_eq_true_2 by reflexivity.
  apply andb_false_r.
Qed.

Lemma stale_why_now d : stale variant d = true -> has_id "why-now" d = true.
Proof. unfold stale. intros H. now apply andb_prop in H. Qed.

(** With at most one element of id [why-now], marking the first one
    leaves none unmarked. *)
Lemma on_section_marks_all n n' :
  (count (has_id "why-now") n <= 1)%nat ->
  update_first (has_id "why-now") on_section n = Some n' ->
  count (stale variant) n' = 0%nat.
Proof.
  revert n'. induction n as [s|d kids IH] using node_ind'; [discriminate|].
  intros n'. rewrite update_first_Element, count_Element.
  destruct (has_id "why-now" d) eqn:Hd.
  - intros Hc [= <-]. unfold on_section.
    rewrite count_Element, stale_setAttribute.
    pose proof (count_in_mono (has_id "why-now") (stale variant) kids
                  stale_why_now). lia.
  - cbn [Nat.add].
    destruct (update_first_in (has_id "why-now") on_section kids)
      as [kids'|] eqn:Hk; [|discriminate].
    intros Hc [= <-]. rewrite count_Element.
    assert (stale variant d = false) as ->
      by (unfold stale; now rewrite Hd).
    cbn [Nat.add]. revert kids' Hk Hc.
    induction IH as [|k ks Hk0 _ IHks]; intros kids' Hk Hc; [discriminate|].
    rewrite count_in_cons in Hc.
    apply update_first_in_cons in Hk
      as [(k' & E & ->)|(ks' & E & Eks & ->)]; rewrite count_in_cons.
    + rewrite (Hk0 k') by (lia || exact E).
      assert (count (has_id "why-now") k <> 0%nat) as Hfound.
      { intros H0. apply (update_first_None _ on_section) in H0. congruence. }
      pose proof (count_in_mono (has_id "why-now") (stale variant) ks
                    stale_why_now). lia.
    + apply update_first_None in E.
      pose proof (count_mono (has_id "why-now") (stale variant) k
                    stale_why_now).
      rewrite (IHks ks') by (lia || exact Eks). lia.
Qed.

Lemma on_section_marks_all_in l l' :
  (count_in (has_id "why-now") l <= 1)%nat ->
  update_first_in (has_id "why-now") on_section l = Some l' ->
  count_in (stale variant) l' = 0%nat.
Proof.
  revert l'. induction l as [|k ks IH]; intros l' Hc H; [discriminate|].
  rewrite count_in_cons in Hc.
  apply update_first_in_cons in H
    as [(k' & E & ->)|(ks' & E & Eks & ->)]; rewrite count_in_cons.
  - rewrite (on_section_marks_all k k') by (lia || exact E).
    assert (count (has_id "why-now") k <> 0%nat) as Hfound.
    { intros H0. apply (update_first_None _ on_section) in H0. congruence. }
    pose proof (count_in_mono (has_id "why-now") (stale variant) ks
                  stale_why_now). lia.
  - apply update_first_None in E.
    pose proof (count_mono (has_id "why-now") (stale variant) k
                  stale_why_now).
    rewrite (IH ks') by (lia || exact Eks). lia.
Qed.

(** Replacing the text of the urgency line adds no element. *)
Lemma on_urgency_count q n n' :
  update_first (has_id "urgency-final") on_urgency n = Some n' ->
  (count q n' <= count q n)%nat.
Proof.
  revert n'. induction n as [s|d kids IH] using node_ind'; [discriminate|].
  intros n'. rewrite update_first_Element.
  destruct (has_id "urgency-final" d).
  - intros [= <-]. unfold on_urgency. rewrite !count_Element.
    assert (forall s, count_in q [Text s] = 0%nat) as -> by reflexivity.
    lia.
  - destruct (update_first_in (has_id "urgency-final") on_urgency kids)
      as [kids'|] eqn:Hk; [|discriminate].
    intros [= <-]. rewrite !count_Element.
    enough (count_in q kids' <= count_in q kids)%nat by lia.
    revert kids' Hk.
    induction IH as [|k ks Hk0 _ IHks]; intros kids' Hk; [discriminate|].
    apply update_first_in_cons in Hk
      as [(k' & E & ->)|(ks' & E & Eks & ->)]; rewrite !count_in_cons.
    + specialize (Hk0 _ E). lia.
    + specialize (IHks _ Eks). lia.
Qed.

Lemma on_urgency_count_in q l l' :
  update_first_in (has_id "urgency-final") on_urgency l = Some l' ->
  (count_in q l' <= count_in q l)%nat.
Proof.
  revert l'. induction l as [|k ks IH]; intros l' H; [discriminate|].
  apply update_first_in_cons in H
    as [(k' & E & ->)|(ks' & E & Eks & ->)]; rewrite !count_in_cons.
  - pose proof (on_urgency_count q _ _ E). lia.
  - specialize (IH _ Eks). lia.
Qed.

(** Marking again a page on which every [why-now] element is marked
    changes nothing. *)
Lemma on_section_fixed n n' :
  count (stale variant) n = 0%nat ->
  update_first (has_id "why-now") on_section n = Some n' -> n' = n.
Proof.
  revert n'. induction n as [s|d kids IH] using node_ind'; [discriminate|].
  intros n'. rewrite update_first_Element, count_Element.
  destruct (has_id "why-now" d) eqn:Hd.
  - intros Hc [= <-]. unfold on_section. f_equal.
    apply setAttribute_id.
    unfold stale in Hc. rewrite Hd in Hc. cbn [andb] in Hc.
    destruct (bool_decide _) eqn:E in Hc; [|cbn in Hc; lia].
    now apply bool_decide_eq_true_1 in E.
  - destruct (update_first_in (has_id "why-now") on_section kids)
      as [kids'|] eqn:Hk; [|discriminate].
    intros Hc [= <-]. f_equal.
    assert (count_in (stale variant) kids = 0%nat) as Hc' by lia.
    clear Hc. revert kids' Hk Hc'.
    induction IH as [|k ks Hk0 _ IHks]; intros kids' Hk Hc; [discriminate|].
    rewrite count_in_cons in Hc.
    apply update_first_in_cons in Hk
      as [(k' & E & ->)|(ks' & E & Eks & ->)].
    + f_equal. apply Hk0; [lia | exact E].
    + f_equal. apply IHks; [exact Eks | lia].
Qed.

Lemma on_section_fixed_in l l' :
  count_in (stale variant) l = 0%nat ->
  update_first_in (has_id "why-now") on_section l = Some l' -> l' = l.
Proof.
  revert l'. induction l as [|k ks IH]; intros l' Hc H; [discriminate|].
  rewrite count_in_cons in Hc.
  apply update_first_in_cons in H
    as [(k' & E & ->)|(ks' & E & Eks & ->)].
  - f_equal. apply on_section_fixed; [lia | exact E].
  - f_equal. apply IH; [lia | exact Eks].
Qed.

Lemma applyWhyNowTextVariant_idem doc :
  (count_in (has_id "why-now") doc <= 1)%nat ->
  applyWhyNowTextVariant variant (applyWhyNowTextVariant variant doc)
  = applyWhyNowTextVariant variant doc.
Proof.
  intros Hc. unfold applyWhyNowTextVariant.
  fold on_section. fold on_urgency.
  assert (forall d kids,
            has_id "why-now" d = true ->
            exists d' kids',
              on_section d kids = Element d' kids' /\
              has_id "why-now" d' = true /\
              on_section d' kids' = Element d' kids') as Hsection.
  { intros d kids Hd. eexists _, _. split; [reflexivity|]. split.
    - rewrite has_id_setAttribute by discriminate. exact Hd.
    - unfold on_section. now rewrite setAttribute_idem. }
  assert (forall d kids,
            has_id "urgency-final" d = true ->
            exists d' kids',
              on_urgency d kids = Element d' kids' /\
              has_id "urgency-final" d' = true /\
              on_urgency d' kids' = Element d' kids') as Hurgency.
  { intros d kids Hd. eexists _, _. split; [reflexivity|]. now split. }
  destruct (update_first_in (has_id "why-now") on_section doc)
    as [doc1|] eqn:E1; [|now rewrite E1].
  destruct (update_first_in (has_id "urgency-final") on_urgency doc1)
    as [doc2|] eqn:E2.
  - assert (count_in (stale variant) doc2 = 0%nat) as Hmarked.
    { pose proof (on_section_marks_all_in _ _ Hc E1).
      pose proof (on_urgency_count_in (stale variant) _ _ E2). lia. }
    destruct (update_first_in (has_id "why-now") on_section doc2)
      as [doc3|] eqn:E3; [|reflexivity].
    rewrite (on_section_fixed_in _ _ Hmarked E3).
    now rewrite (update_first_in_idem _ _ Hurgency _ _ E2).
  - rewrite (update_first_in_idem _ _ Hsection _ _ E1), E2. reflexivity.
Qed.

End WhyNow.

(** C8. Applying the variant of a test twice leaves the page exactly as
    applying it once does (text, attributes, classes and inline style of
    every element), for every test name and every variant value, on a
    page whose ids are unique; of that, only that the id [why-now] occurs
    at most once is used. *)
Theorem applyVariant_idempotent testName variant doc :
  (count_in (has_id "why-now") doc <= 1)%nat ->
  applyVariant testName variant (applyVariant testName variant doc)
  = applyVariant testName variant doc.
Proof.
  intros Hc. unfold applyVariant.
  destruct (String.eqb testName "hero_headline");
    [apply applyHeroHeadlineVariant_idem|].
  destruct (String.eqb testName "why_now_text");
    [now apply applyWhyNowTextVariant_idem|].
  destruct (String.eqb testName "cta_button_color");
    [apply applyCtaButtonColorVariant_idem | reflexivity].
Qed.

Lemma applyVariant_idempotent_witness :
  applyVariant "why_now_text" (Js.Str "B")
    (applyVariant "why_now_text" (Js.Str "B") landing_page)
  = applyVariant "why_now_text" (Js.Str "B") landing_page.
Proof.
  apply (applyVariant_idempotent "why_now_text" (Js.Str "B") landing_page).
  vm_compute. lia.
Defined.

(** The hypothesis is needed for the equality of whole pages: on a
    malformed page with two elements of id [why-now], the first inside
    the urgency line, the first application marks the first and replaces
    it with the text, and a second application reaches the second. *)
Example second_why_now_is_reached_later :
  applyVariant "why_now_text" (Js.Str "A")
    (applyVariant "why_now_text" (Js.Str "A")
       [ Element {| tag := "p"; attrs := {["id" := "urgency-final"]};
                    classList := []; style := ∅ |}
           [ Element {| tag := "span"; attrs := {["id" := "why-now"]};
                        classList := []; style := ∅ |} [] ];
         Element {| tag := "section"; attrs := {["id" := "why-now"]};
                    classList := []; style := ∅ |} [] ])
  <> applyVariant "why_now_text" (Js.Str "A")
       [ Element {| tag := "p"; attrs := {["id" := "urgency-final"]};
                    classList := []; style := ∅ |}
           [ Element {| tag := "span"; attrs := {["id" := "why-now"]};
                        classList := []; style := ∅ |} [] ];
         Element {| tag := "section"; attrs := {["id" := "why-now"]};
                    classList := []; style := ∅ |} [] ].
Proof.
  intros H.
  apply (f_equal (count_in (has_attr "data-variant"))) in H.
  vm_compute in H. discriminate H.
Qed.


End Application.

(** ** Phone number formatting: which digits survive *)

Section PhoneDigits.

Import FormHandler.

(** Typing 5, 1, 2 into the empty field: the listener runs after every
    key on the value it wrote back itself. *)
Example formatPhoneNumber_keystrokes :
  formatPhoneNumber "5" = "05" /\
  formatPhoneNumber ("05" +:+ "1") = "0051" /\
  formatPhoneNumber ("0051" +:+ "2") = "0005-12".
Proof. repeat split; reflexivity. Qed.

Lemma strip_digit c s :
  Js.is_digit c = true ->
  Js.strip_non_digits (String c s) = String c (Js.strip_non_digits s).
Proof. intros H. simpl. now rewrite H. Qed.

Lemma strip_dash s :
  Js.strip_non_digits (String "-" s) = Js.strip_non_digits s.
Proof. reflexivity. Qed.

(** The written value starts with a 0 followed by the first digit of the
    input. *)
Lemma formatPhoneNumber_head input c rest :
  Js.strip_non_digits input = String c rest ->
  exists t, formatPhoneNumber input = String "0" (String c t).
Proof.
  intros H. unfold formatPhoneNumber. rewrite H.
  do 11 (try (destruct rest as [|? rest])).
  all: lazy; eexists; reflexivity.
Qed.

(** X1. The digits of the written value are a 0 followed by the first nine
    digits of the input, in their order: every later digit is dropped,
    unless the input holds no digit at all. *)
Theorem formatPhoneNumber_digits (input : string) :
  no_digit input \/
  Js.strip_non_digits (formatPhoneNumber input)
  = "0" +:+ Js.substring (Js.strip_non_digits input) 0 9.
Proof.
  rewrite <- strip_empty_iff.
  unfold formatPhoneNumber.
  generalize (strip_all_digits input).
  generalize (Js.strip_non_digits input) as d.
  intros d Hd.
  do 11 (try (destruct d as [|? d];
              [|apply all_digits_cons in Hd; destruct Hd as [? Hd]])).
  all: try (left; reflexivity).
  all: right.
  all: lazy -[Js.is_digit all_digits Js.strip_non_digits].
  all: rewrite (strip_digit "0") by reflexivity.
  all: repeat first [ rewrite strip_dash | rewrite strip_digit by assumption ].
  all: reflexivity.
Qed.

(** X2. The formatter does not recognise its own output: run on a value it
    wrote (as the next input event does), it puts a further 0 in front, so
    the result starts with two zeros. *)
Theorem formatPhoneNumber_prefixes_again (input : string) :
  no_digit input \/
  (String.get 0 (formatPhoneNumber (formatPhoneNumber input))
   = Some "0"%char /\
   String.get 1 (formatPhoneNumber (formatPhoneNumber input))
   = Some "0"%char).
Proof.
  rewrite <- strip_empty_iff.
  destruct (Js.strip_non_digits input) as [|c rest] eqn:E;
    [left; reflexivity | right].
  destruct (formatPhoneNumber_head input c rest E) as [t Ht].
  destruct (formatPhoneNumber_head (formatPhoneNumber input) "0"
              (Js.strip_non_digits (String c t))) as [t' Ht'].
  - rewrite Ht. reflexivity.
  - rewrite Ht'. split; reflexivity.
Qed.

End PhoneDigits.

(** ** Scroll depth: a threshold that is reached is reported *)

Section ScrollReached.

Import Browser Analytics.









End ScrollReached.

(** ** Variants persist across loads *)

Section Persistence.

Import Browser Dom ABTesting.

Lemma stored_Str c testName s label :
  stored c testName s = Js.Str label ->
  items (localStorage s) !! (localStoragePrefix c +:+ testName) = Some label.
Proof.
  unfold stored. destruct (items _ !! _); [intros [= ->]; reflexivity|].
  discriminate.
Qed.

(** When [assignVariant] returns, the label it settled on is allowed, is
    the entry of the test in [this.variants] and is what the storage
    holds for the test; no other item of the storage has changed. *)
Lemma assignVariant_stores c testName allowed s s' :
  obj_get testName (tests c) = Some allowed ->
  allowed <> [] ->
  assignVariant c testName s = Return tt s' ->
  exists label,
    In label allowed /\
    variants s' = obj_set testName (Js.Str label) (variants s) /\
    items (localStorage s') !! (localStoragePrefix c +:+ testName)
    = Some label /\
    (forall k, k <> localStoragePrefix c +:+ testName ->
       items (localStorage s') !! k = items (localStorage s) !! k) /\
    getItem_throws (localStorage s) = false /\
    getItem_throws (localStorage s') = false.
Proof.
  intros Hown Hne. rewrite (assignVariant_closed_form _ _ _ _ Hown).
  destruct (getItem_throws (localStorage s)) eqn:Hg; [discriminate|].
  destruct (resolution_member c testName allowed s Hne) as (label & E & Hl).
  destruct (resolution c testName allowed s) as [src v] eqn:R.
  cbn [snd] in E. subst v. cbv zeta. unfold setItem.
  destruct src; cbn [localStorage with_variants with_draws];
    [|destruct (setItem_throws (localStorage s)); [discriminate|]..];
    intros [= <-]; exists label;
    cbn [variants localStorage items getItem_throws with_calls
         with_localStorage with_variants with_draws Js.to_string].
  - pose proof (resolution_from_storage c testName allowed s) as Hr.
    rewrite R in Hr. specialize (Hr eq_refl). injection Hr as Hr.
    symmetry in Hr. apply stored_Str in Hr.
    split; [exact Hl|]. split; [reflexivity|]. split; [exact Hr|].
    split; [reflexivity|]. split; [reflexivity | exact Hg].
  - split; [exact Hl|]. split; [reflexivity|].
    split; [apply lookup_insert_eq|].
    split; [intros k Hk; now rewrite lookup_insert_ne|].
    split; [reflexivity | exact Hg].
  - split; [exact Hl|]. split; [reflexivity|].
    split; [apply lookup_insert_eq|].
    split; [intros k Hk; now rewrite lookup_insert_ne|].
    split; [reflexivity | exact Hg].
Qed.

(** When the loop of [initialize] returns, [this.variants] holds, test by
    test in the order of the loop, what the storage holds at the end. *)
Lemma assign_all_stores c names s s' :
  nonempty_variants c ->
  (forall n, In n names -> In n (keys (tests c))) ->
  NoDup names ->
  forEach (assignVariant c) names s = Return tt s' ->
  variants s'
  = fold_left (fun vs t => obj_set t (stored c t s') vs) names (variants s) /\
  (forall t, In t names ->
     exists allowed label,
       obj_get t (tests c) = Some allowed /\
       In label allowed /\
       stored c t s' = Js.Str label) /\
  (forall k, (forall t, In t names -> k <> localStoragePrefix c +:+ t) ->
     items (localStorage s') !! k = items (localStorage s) !! k) /\
  (names <> [] -> getItem_throws (localStorage s') = false).
Proof.
  intros Hwf. revert s.
  induction names as [|n names IH]; intros s Hsub Hnd; simpl.
  - intros [= <-]. split; [reflexivity|]. split; [intros t []|].
    split; [reflexivity | congruence].
  - unfold bind.
    destruct (assignVariant c n s) as [[] sa|e sa] eqn:Ea; [|discriminate].
    intros Hloop.
    destruct (keys_obj_get n (tests c) (Hsub n (or_introl eq_refl)))
      as [allowed Hown].
    assert (allowed <> []) as Hne
      by (eapply Hwf, obj_get_In; exact Hown).
    destruct (assignVariant_stores _ _ _ _ _ Hown Hne Ea)
      as (label & Hl & Hv & Hitem & Hother & _ & Hga).
    apply NoDup_cons in Hnd as [Hn Hnd].
    destruct (IH sa (fun m Hm => Hsub m (or_intror Hm)) Hnd Hloop)
      as (Hvs & Hall & Hkeep & Hg').
    assert (stored c n s' = Js.Str label) as Hstored.
    { unfold stored. rewrite Hkeep, Hitem; [reflexivity|].
      intros t Ht E. apply (inj (String.app _)) in E. subst t.
      apply Hn. now apply list_elem_of_In. }
    split; [|split; [|split]].
    + rewrite Hvs, Hv, Hstored. reflexivity.
    + intros t [<-|Ht]; [eauto | now apply Hall].
    + intros k Hk. rewrite Hkeep by (intros t Ht; apply Hk; now right).
      apply Hother, Hk. now left.
    + intros _. destruct names as [|m names]; [|apply Hg'; discriminate].
      simpl in Hloop. injection Hloop as <-. exact Hga.
Qed.

Lemma In_includes allowed label :
  In label allowed -> Js.includes allowed (Js.Str label) = true.
Proof. intros H. apply includes_In. eauto. Qed.

Lemma truthy_Str label : label <> "" -> Js.truthy (Js.Str label) = true.
Proof. destruct label; [congruence | reflexivity]. Qed.

(** A stored label that is allowed and not empty is what the test
    resolves to. *)
Lemma resolution_stored c testName allowed label s :
  stored c testName s = Js.Str label ->
  In label allowed ->
  label <> "" ->
  resolution c testName allowed s = (FromStorage, Js.Str label).
Proof.
  intros E Hl Hne. unfold resolution.
  now rewrite E, (truthy_Str _ Hne), (In_includes _ _ Hl).
Qed.

(** When every test of [names] has a valid stored variant, the loop of
    [initialize] only copies the stored variants into [this.variants]. *)
Lemma assign_all_from_storage c names s vs :
  (names <> [] -> getItem_throws (localStorage s) = false) ->
  (forall t, In t names ->
     exists a, obj_get t (tests c) = Some a /\
               fst (resolution c t a s) = FromStorage) ->
  forEach (assignVariant c) names (with_variants vs s)
  = Return tt
      (with_variants
         (fold_left (fun vs' t => obj_set t (stored c t s) vs') names vs) s).
Proof.
  intros Hg Hall. revert vs.
  induction names as [|t names IH]; intros vs; cbn [forEach fold_left].
  - reflexivity.
  - unfold bind.
    destruct (Hall t (or_introl eq_refl)) as (a & Ha & Hsrc).
    rewrite (assignVariant_closed_form _ _ _ _ Ha).
    cbn [localStorage with_variants]. rewrite Hg by discriminate.
    change (resolution c t a (with_variants vs s))
      with (resolution c t a s).
    rewrite (resolution_from_storage _ _ _ _ Hsrc). cbv zeta.
    cbn [variants with_variants].
    change (with_variants (obj_set t (stored c t s) vs) (with_variants vs s))
      with (with_variants (obj_set t (stored c t s) vs) s).
    apply IH.
    + intros _. apply Hg. discriminate.
    + intros t' Ht'. apply Hall. now right.
Qed.

(** X4. A visitor who comes back is shown what they were shown before.
    After a load without preview parameter has completed, the next load
    without preview parameter in the same browser completes too and
    resolves every test to the variant of the first load, whatever its
    query string overrides and whatever the random source would produce:
    it draws no random number, leaves the storage as it is (so it
    completes even if writes would throw), applies the same variants to
    the page and reports their impressions. *)
Theorem returning_visitor_keeps_variants c s s1 query rnd doc g f :
  nonempty_variants c ->
  nonempty_labels c ->
  NoDup (keys (tests c)) ->
  params_has "ab_preview" (search s) = false ->
  constructor c s = Return tt s1 ->
  params_has "ab_preview" query = false ->
  exists s2,
    constructor c (next_load s1 query rnd doc g f) = Return tt s2 /\
    variants s2 = variants s1 /\
    document s2 = applied (variants s1) doc /\
    draws s2 = 0%nat /\
    localStorage s2 = localStorage s1 /\
    calls s2 = (if analyticsEnabled c
                then flat_map (impression g f) (variants s1)
                else []).
Proof.
  intros Hwf Hlab Hnd Hp Hfirst Hq.
  rewrite (constructor_normal _ _ Hp) in Hfirst.
  destruct (forEach (assignVariant c) (keys (tests c)) (with_variants [] s))
    as [[] sl|e sl] eqn:Hloop; [|discriminate].
  destruct (assign_all_stores c _ _ _ Hwf (fun n H => H) Hnd Hloop)
    as (Hvs & Hall & _ & Hg).
  cbn [variants with_variants] in Hvs.
  destruct (trackImpressions_returns c (after_apply sl))
    as (s1' & Htrack & Hv1 & _ & Hst1 & _).
  rewrite Htrack in Hfirst. injection Hfirst as ->.
  cbn [variants localStorage after_apply with_steps with_document]
    in Hv1, Hst1.
  set (s0 := next_load s1 query rnd doc g f).
  assert (forall t, stored c t s0 = stored c t sl) as Hsame.
  { intros t. unfold stored, s0. cbn [localStorage next_load].
    now rewrite Hst1. }
  assert (forEach (assignVariant c) (keys (tests c)) (with_variants [] s0)
          = Return tt (with_variants (variants s1) s0)) as Hsecond.
  { rewrite (assign_all_from_storage c (keys (tests c)) s0 []).
    - f_equal. f_equal. rewrite Hv1, Hvs.
      generalize (@nil (string * Js.value)) as acc.
      generalize (keys (tests c)) as l.
      induction l as [|t l IHl]; intros acc; simpl; [reflexivity|].
      rewrite Hsame. apply IHl.
    - intros Hne. unfold s0. cbn [localStorage next_load].
      rewrite Hst1. now apply Hg.
    - intros t Ht. destruct (Hall t Ht) as (allowed & label & Ha & Hl & E).
      exists allowed. split; [exact Ha|].
      rewrite (resolution_stored c t allowed label s0);
        [reflexivity | now rewrite Hsame | exact Hl |].
      intros ->. eapply Hlab; [eapply obj_get_In; exact Ha | exact Hl]. }
  rewrite (constructor_normal c s0 Hq), Hsecond.
  destruct (trackImpressions_returns c (after_apply (with_variants (variants s1) s0)))
    as (s2 & Htrack2 & Hv2 & Hd2 & Hst2 & Hdr2 & _ & Hc2 & _).
  exists s2. split; [exact Htrack2|].
  cbn [variants document localStorage draws calls gtag fbq after_apply
       with_steps with_document with_variants next_load s0]
    in Hv2, Hd2, Hst2, Hdr2, Hc2.
  repeat split; assumption.
Qed.

Lemma returning_visitor_keeps_variants_witness :
  exists s2,
    constructor AB_TEST_CONFIG
      (next_load
         (final (constructor AB_TEST_CONFIG
                   (page_load [] false false [("ab_hero_headline", "B")]
                              (fun _ => 0%N) Accepts Absent)))
         [("ab_hero_headline", "A")] (fun _ => (2 ^ 53 - 1)%N)
         landing_page Accepts Accepts)
    = Return tt s2 /\
    variants s2
    = variants (final (constructor AB_TEST_CONFIG
                         (page_load [] false false
                                    [("ab_hero_headline", "B")]
                                    (fun _ => 0%N) Accepts Absent))) /\
    document s2
    = applied
        (variants (final (constructor AB_TEST_CONFIG
                            (page_load [] false false
                                       [("ab_hero_headline", "B")]
                                       (fun _ => 0%N) Accepts Absent))))
        landing_page /\
    draws s2 = 0%nat /\
    localStorage s2
    = localStorage (final (constructor AB_TEST_CONFIG
                             (page_load [] false false
                                        [("ab_hero_headline", "B")]
                                        (fun _ => 0%N) Accepts Absent))) /\
    calls s2
    = (if analyticsEnabled AB_TEST_CONFIG
       then flat_map (impression Accepts Accepts)
              (variants (final (constructor AB_TEST_CONFIG
                                  (page_load [] false false
                                             [("ab_hero_headline", "B")]
                                             (fun _ => 0%N) Accepts Absent))))
       else []).
Proof.
  apply (returning_visitor_keeps_variants AB_TEST_CONFIG
           (page_load [] false false [("ab_hero_headline", "B")]
                      (fun _ => 0%N) Accepts Absent)).
  - apply AB_TEST_CONFIG_nonempty.
  - apply AB_TEST_CONFIG_labels.
  - apply AB_TEST_CONFIG_keys_NoDup.
  - reflexivity.
  - vm_compute. reflexivity.
  - reflexivity.
Defined.

(** A first load that takes the override [B] and draws the other two
    tests, then a second load that keeps all three against its own
    override [A]. *)
Example override_is_ignored_on_return :
  variants (final (constructor AB_TEST_CONFIG
                     (next_load
                        (final (constructor AB_TEST_CONFIG
                                  (page_load [] false false
                                             [("ab_hero_headline", "B")]
                                             (fun _ => 0%N) Accepts Absent)))
                        [("ab_hero_headline", "A")]
                        (fun _ => (2 ^ 53 - 1)%N)
                        landing_page Accepts Accepts)))
  = [ ("hero_headline", Js.Str "B"); ("why_now_text", Js.Str "A");
      ("cta_button_color", Js.Str "blue") ].
Proof. vm_compute. reflexivity. Qed.

End Persistence.

(** ** A preview leaves its choice behind *)

Section PreviewPersists.

Import Browser Dom ABTesting.




End PreviewPersists.

(** ** The first visit *)

Section FirstVisit.

Import Browser Dom ABTesting.

(** X6. With nothing stored for a test, it is resolved by the override of
    the query string when that names an allowed variant, without a random
    draw, and otherwise by one random draw among the allowed variants; in
    both cases the label is allowed, is recorded in [this.variants] and is
    written to the storage under the key of the test, by the only call put
    on record. *)
Theorem first_visit_resolution c testName allowed s :
  obj_get testName (tests c) = Some allowed ->
  allowed <> [] ->
  getItem_throws (localStorage s) = false ->
  setItem_throws (localStorage s) = false ->
  items (localStorage s) !! (localStoragePrefix c +:+ testName) = None ->
  exists s' label,
    assignVariant c testName s = Return tt s' /\
    (if params_has ("ab_" +:+ testName) (search s)
        && Js.includes allowed (params_get ("ab_" +:+ testName) (search s))
     then params_get ("ab_" +:+ testName) (search s) = Js.Str label /\
          draws s' = draws s
     else drawn allowed s = Js.Str label /\ draws s' = S (draws s)) /\
    In label allowed /\
    obj_get testName (variants s') = Some (Js.Str label) /\
    items (localStorage s') !! (localStoragePrefix c +:+ testName)
    = Some label /\
    calls s' = calls s ++ [StorageSet (localStoragePrefix c +:+ testName)
                                      label].
Proof.
  intros Hown Hne Hget Hset Hitem.
  rewrite (assignVariant_closed_form _ _ _ _ Hown), Hget.
  destruct (resolution_member c testName allowed s Hne) as (label & E & Hl).
  revert E. unfold resolution, stored. rewrite Hitem.
  cbn [Js.truthy andb].
  destruct (params_has _ _ && Js.includes allowed _); cbn [snd]; intros E;
    rewrite E; cbv zeta; unfold setItem;
    cbn [localStorage with_variants with_draws]; rewrite Hset;
    eexists; exists label.
  all: split; [reflexivity|].
  all: cbn [variants draws items localStorage calls with_calls
            with_localStorage with_variants with_draws Js.to_string].
  all: split; [split; [first [assumption | reflexivity] | reflexivity]|].
  all: split; [assumption|].
  all: split; [apply obj_get_set_eq|].
  all: split; [apply lookup_insert_eq | reflexivity].
Qed.

Lemma first_visit_resolution_witness :
  exists s' label,
    assignVariant AB_TEST_CONFIG "cta_button_color"
      (page_load [] false false [("ab_cta_button_color", "green")]
                 (fun _ => (2 ^ 52)%N) Accepts Accepts)
    = Return tt s' /\
    (if params_has ("ab_" +:+ "cta_button_color")
          [("ab_cta_button_color", "green")]
        && Js.includes ["blue"; "yellow"]
             (params_get ("ab_" +:+ "cta_button_color")
                         [("ab_cta_button_color", "green")])
     then params_get ("ab_" +:+ "cta_button_color")
            [("ab_cta_button_color", "green")] = Js.Str label /\
          draws s' = 0%nat
     else drawn ["blue"; "yellow"]
            (page_load [] false false [("ab_cta_button_color", "green")]
                       (fun _ => (2 ^ 52)%N) Accepts Accepts)
          = Js.Str label /\
          draws s' = 1%nat) /\
    In label ["blue"; "yellow"] /\
    obj_get "cta_button_color" (variants s') = Some (Js.Str label) /\
    items (localStorage s') !! ("ab_test_" +:+ "cta_button_color")
    = Some label /\
    calls s' = [] ++ [StorageSet ("ab_test_" +:+ "cta_button_color") label].
Proof.
  apply (first_visit_resolution AB_TEST_CONFIG "cta_button_color"
           ["blue"; "yellow"]
           (page_load [] false false [("ab_cta_button_color", "green")]
                      (fun _ => (2 ^ 52)%N) Accepts Accepts)).
  - reflexivity.
  - discriminate.
  - reflexivity.
  - reflexivity.
  - reflexivity.
Defined.

(** An override [green] is not allowed and is passed over; the draw of
    one half selects the second variant. *)
Example invalid_override_is_passed_over :
  variants (final (assignVariant AB_TEST_CONFIG "cta_button_color"
                     (page_load [] false false
                                [("ab_cta_button_color", "green")]
                                (fun _ => (2 ^ 52)%N) Accepts Accepts)))
  = [("cta_button_color", Js.Str "yellow")].
Proof. vm_compute. reflexivity. Qed.

End FirstVisit.

(** ** The analytics switch *)

Section AnalyticsSwitch.

Import Browser Dom ABTesting.

(** X7. The switch is read by the reporting methods only: the constructor
    ends the same way with it on and off (it returns in both cases, or
    throws the same exception from the same state), and when it returns,
    the resolved variants, the page, the storage and the random numbers
    consumed are the same; with the switch off, nothing but storage writes
    is put on record and every step taken is an application. *)
Theorem analytics_switch_only_silences (c : config) (s : state) :
  match constructor (with_analyticsEnabled true c) s,
        constructor (with_analyticsEnabled false c) s with
  | Return _ s_on, Return _ s_off =>
      variants s_off = variants s_on /\
      document s_off = document s_on /\
      localStorage s_off = localStorage s_on /\
      draws s_off = draws s_on /\
      (exists writes,
         calls s_off = calls s ++ writes /\ Forall is_write writes) /\
      (exists done,
         steps s_off = steps s ++ done /\ Forall is_applied done)
  | Throw e_on t_on, Throw e_off t_off => e_off = e_on /\ t_off = t_on
  | _, _ => False
  end.
Proof.
  destruct (params_has "ab_preview" (search s)) eqn:Hp.
  - rewrite !(constructor_preview _ _ Hp).
    change (handlePreviewMode (with_analyticsEnabled true c))
      with (handlePreviewMode c).
    change (handlePreviewMode (with_analyticsEnabled false c))
      with (handlePreviewMode c).
    rewrite handlePreviewMode_closed_form.
    cbn [search with_variants localStorage].
    destruct (preview_throws c (search s)); [split; reflexivity|].
    destruct (preview_valid c (search s)).
    2: { do 4 (split; [reflexivity|]).
         split; exists []; cbn; rewrite app_nil_r; split; constructor. }
    cbv zeta. destruct (setItem_throws (localStorage s)) eqn:Hs;
      [split; reflexivity|].
    unfold setItem. cbn [localStorage with_variants]. rewrite Hs.
    do 4 (split; [reflexivity|]).
    split; eexists; (split; [cbn; reflexivity|]); repeat constructor.
  - rewrite !(constructor_normal _ _ Hp).
    change (assignVariant (with_analyticsEnabled true c))
      with (assignVariant c).
    change (assignVariant (with_analyticsEnabled false c))
      with (assignVariant c).
    change (tests (with_analyticsEnabled true c)) with (tests c).
    change (tests (with_analyticsEnabled false c)) with (tests c).
    pose proof (forEach_assign_frame c (keys (tests c)) (with_variants [] s))
      as Hf.
    pose proof (forEach_assign_steps c (keys (tests c)) (with_variants [] s))
      as Hst.
    destruct (forEach (assignVariant c) (keys (tests c))
                (with_variants [] s)) as [[] sl|e sl];
      [|split; reflexivity].
    cbn [final] in Hf, Hst.
    destruct Hf as (_ & _ & _ & _ & _ & _ & _ & _ & Hw).
    cbn [calls steps with_variants] in Hw, Hst.
    rewrite !trackImpressions_closed_form.
    cbn [analyticsEnabled with_analyticsEnabled].
    do 4 (split; [reflexivity|]).
    split; [exact Hw|].
    exists (map (fun e => Applied (fst e) (snd e)) (variants sl)).
    cbn [steps after_apply with_steps with_document]. rewrite Hst.
    split; [reflexivity|].
    apply Forall_forall. intros st Hin.
    apply list_elem_of_In, in_map_iff in Hin as (e & <- & _). exact I.
Qed.

(** With the switch off a first visit still resolves, stores and applies
    the three variants; the record holds the three writes only. *)
Example silent_first_visit :
  let s := final (constructor (with_analyticsEnabled false AB_TEST_CONFIG)
                    (page_load [] false false [] (fun _ => 0%N)
                               Accepts Accepts)) in
  variants s = [ ("hero_headline", Js.Str "A"); ("why_now_text", Js.Str "A");
                 ("cta_button_color", Js.Str "blue") ] /\
  calls s = [ StorageSet "ab_test_hero_headline" "A";
              StorageSet "ab_test_why_now_text" "A";
              StorageSet "ab_test_cta_button_color" "blue" ] /\
  document s <> landing_page.
Proof.
  split; [vm_compute; reflexivity|]. split; [vm_compute; reflexivity|].
  intros H. apply (f_equal (count_in (has_attr "data-variant"))) in H.
  vm_compute in H. discriminate H.
Qed.

End AnalyticsSwitch.

(** ** Conversions reported by clicks *)

Section Conversions.

Import Browser Dom ABTesting.

Lemma conversion_of g f testName variant conversionType testName' cl :
  In cl (conversion g f testName variant conversionType) ->
  is_conversion_of testName' cl ->
  testName' = testName.
Proof.
  unfold conversion, is_conversion_of, gtag_conversion, fbq_conversion,
    log_conversion.
  intros Hin (v & ty & Hcl).
  destruct g, f; simpl in Hin.
  all: repeat match goal with
       | H : _ \/ _ |- _ => destruct H as [H|H]
       | H : False |- _ => destruct H
       end.
  all: congruence.
Qed.

Lemma trackConversion_closed_form c testName conversionType s :
  trackConversion c testName conversionType s
  = Return tt
      (with_calls
         (calls s
          ++ match obj_get testName (variants s) with
             | Some v =>
                 if analyticsEnabled c && Js.truthy v
                 then conversion (gtag s) (fbq s) testName v conversionType
                 else []
             | None => []
             end) s).
Proof.
  unfold trackConversion, bind, get_state, modify, ret.
  destruct (analyticsEnabled c); cbn [negb andb].
  - destruct (obj_get testName (variants s)) as [v|]; cbn [Js.truthy negb].
    + destruct (Js.truthy v); cbn [negb]; [reflexivity|].
      now rewrite app_nil_r, with_calls_id.
    + now rewrite app_nil_r, with_calls_id.
  - destruct (obj_get testName (variants s));
      now rewrite app_nil_r, with_calls_id.
Qed.

(** X8. The click listener never throws and changes nothing but the record
    of calls. A click inside the call-to-action [hero_primary] reports the
    conversion of [hero_headline], one inside [header_cta] or [sticky_cta]
    that of [cta_button_color], each with the variant resolved for the
    test, when reporting is enabled and the test has a variant; and no
    click sends either collector a conversion of any other test: the
    conversions of [why_now_text] are never reported. *)
Theorem click_reports_two_tests_only (c : config)
    (path : list element_data) (s : state) :
  exists added,
    on_click c path s = Return tt (with_calls (calls s ++ added) s) /\
    (forall cta testName v,
       abTesting s = true ->
       analyticsEnabled c = true ->
       closest (has_attr "data-cta-id") path = Some cta ->
       (attrs cta !! "data-cta-id" = Some "hero_primary" /\
        testName = "hero_headline") \/
       ((attrs cta !! "data-cta-id" = Some "header_cta" \/
         attrs cta !! "data-cta-id" = Some "sticky_cta") /\
        testName = "cta_button_color") ->
       obj_get testName (variants s) = Some v ->
       Js.truthy v = true ->
       added = conversion (gtag s) (fbq s) testName v "cta_click") /\
    (forall testName cl,
       In cl added -> is_conversion_of testName cl ->
       testName = "hero_headline" \/ testName = "cta_button_color").
Proof.
  unfold on_click.
  destruct (closest (has_attr "data-cta-id") path) as [cta|].
  2: { exists []. rewrite app_nil_r, with_calls_id.
       split; [reflexivity|]. split; [discriminate | intros ? ? []]. }
  unfold bind at 1. unfold get_state.
  destruct (abTesting s) eqn:Hab.
  2: { exists []. rewrite app_nil_r, with_calls_id.
       split; [reflexivity|]. split; [discriminate | intros ? ? []]. }
  destruct (attrs cta !! "data-cta-id") as [ctaId|] eqn:Hid;
    unfold default; cbn [from_option id].
  2: { exists []. rewrite app_nil_r, with_calls_id.
       split; [reflexivity|]. split; [|intros ? ? []].
       intros cta' T v _ _ [= <-] [[E _]|[[E|E] _]]; congruence. }
  destruct (String.eqb_spec ctaId "hero_primary") as [->|Hhero].
  { cbv iota. rewrite trackConversion_closed_form.
    eexists. split; [reflexivity|].
    split.
    - intros cta' T v _ Hen [= <-] [[_ ->]|[[E|E] _]] Hv Ht;
        [|congruence..].
      now rewrite Hv, Hen, Ht.
    - intros T cl Hin Hcv. left.
      destruct (obj_get "hero_headline" (variants s)) as [v|]; [|destruct Hin].
      destruct (analyticsEnabled c && Js.truthy v); [|destruct Hin].
      eapply conversion_of; eassumption. }
  destruct (String.eqb ctaId "header_cta" || String.eqb ctaId "sticky_cta")
    eqn:Hcta.
  { cbv iota. rewrite trackConversion_closed_form.
    eexists. split; [reflexivity|].
    split.
    - intros cta' T v _ Hen [= <-] [[E _]|[_ ->]] Hv Ht; [congruence|].
      now rewrite Hv, Hen, Ht.
    - intros T cl Hin Hcv. right.
      destruct (obj_get "cta_button_color" (variants s)) as [v|];
        [|destruct Hin].
      destruct (analyticsEnabled c && Js.truthy v); [|destruct Hin].
      eapply conversion_of; eassumption. }
  exists []. rewrite app_nil_r, with_calls_id.
  split; [reflexivity|]. split; [|intros ? ? []].
  intros cta' T v _ _ [= <-] [[E _]|[[E|E] _]].
  - congruence.
  - rewrite Hid in E. injection E as ->. discriminate Hcta.
  - rewrite Hid in E. injection E as ->. discriminate Hcta.
Qed.

(** After a first visit, a click on the text inside the hero button
    reports the conversion of the headline test to the loaded
    collector. *)
Example click_on_hero_button :
  let s := startup AB_TEST_CONFIG
             (page_load [] false false [] (fun _ => 0%N) Accepts Absent) in
  let button := {| tag := "a";
                   attrs := {["data-cta-id" := "hero_primary"]};
                   classList := ["btn"]; style := ∅ |} in
  let label := {| tag := "span"; attrs := ∅; classList := [];
                  style := ∅ |} in
  calls (final (on_click AB_TEST_CONFIG [label; button] s))
  = calls s
    ++ [ gtag_conversion "hero_headline" (Js.Str "A") "cta_click";
         log_conversion "hero_headline" (Js.Str "A") "cta_click" ].
Proof. vm_compute. reflexivity. Qed.

End Conversions.

(** ** Tests whose target is not on the page *)

Section MissingTarget.

Import Browser Dom ABTesting.




End MissingTarget.

(** ** The steps of the lead form *)

Section FormSteps.

Import FormNavigation.

Lemma selects_inj n m st : selects n st = true -> selects m st = true -> n = m.
Proof.
  unfold selects. intros Hn Hm.
  apply String.eqb_eq in Hn, Hm. rewrite Hn in Hm.
  now apply (inj pretty) in Hm.
Qed.

Lemma selects_other n m st :
  n <> m -> selects m st = true -> selects n st = false.
Proof.
  intros Hne Hm. destruct (selects n st) eqn:Hn; [|reflexivity].
  exfalso. apply Hne. eapply selects_inj; eassumption.
Qed.

(** A lookup after a mutation that keeps [data-step]: the mutated step is
    found under its own number, every other lookup is as before. *)
Lemma querySelector_update_step n m f l :
  (forall st, data_step (f st) = data_step st) ->
  querySelector n (update_step m f l)
  = if decide (n = m) then option_map f (querySelector n l)
    else querySelector n l.
Proof.
  intros Hf. unfold querySelector.
  induction l as [|st rest IH]; cbn [update_step find].
  - destruct (decide (n = m)); reflexivity.
  - destruct (selects m st) eqn:Hm; cbn [find].
    + assert (selects n (f st) = selects n st) as ->
        by (unfold selects; now rewrite Hf).
      destruct (decide (n = m)) as [->|Hne].
      * now rewrite Hm.
      * now rewrite (selects_other n m st Hne Hm).
    + rewrite IH. destruct (decide (n = m)) as [->|Hne].
      * now rewrite Hm.
      * destruct (selects n st); reflexivity.
Qed.

Lemma update_step_absent n f l :
  querySelector n l = None -> update_step n f l = l.
Proof.
  unfold querySelector.
  induction l as [|st rest IH]; cbn [update_step find]; [reflexivity|].
  destruct (selects n st); [discriminate|]. intros H. now rewrite IH.
Qed.

Lemma update_step_twice n f l :
  (forall st, data_step (f st) = data_step st) ->
  update_step n f (update_step n f l) = update_step n (fun st => f (f st)) l.
Proof.
  intros Hf.
  induction l as [|st rest IH]; cbn [update_step]; [reflexivity|].
  destruct (selects n st) eqn:Hn; cbn [update_step].
  - assert (selects n (f st) = true) as ->
      by (unfold selects in *; now rewrite Hf).
    reflexivity.
  - rewrite Hn. now rewrite IH.
Qed.

Lemma update_step_ext n f g l :
  (forall st, f st = g st) -> update_step n f l = update_step n g l.
Proof.
  intros H. induction l as [|st rest IH]; cbn [update_step]; [reflexivity|].
  destruct (selects n st); [now rewrite H | now rewrite IH].
Qed.

Lemma validate_fields_idem st :
  validate_fields (validate_fields st) = validate_fields st.
Proof.
  unfold validate_fields. cbn [data_step active required]. f_equal.
  rewrite map_map. apply map_ext. intros fd. reflexivity.
Qed.

Lemma forallb_validate l :
  forallb (fun fd => negb (blank fd)) (map validate_field l)
  = forallb (fun fd => negb (blank fd)) l.
Proof.
  induction l as [|fd l IH]; [reflexivity|].
  cbn [map forallb]. now rewrite IH.
Qed.

Lemma In_update_step n f l st' :
  In st' (update_step n f l) ->
  In st' l \/ exists st, In st l /\ selects n st = true /\ st' = f st.
Proof.
  induction l as [|st rest IH]; cbn [update_step]; [intros []|].
  destruct (selects n st) eqn:Hn.
  - intros [<-|Hin]; [right; exists st|left; now right].
    split; [now left | split; [exact Hn | reflexivity]].
  - intros [<-|Hin]; [left; now left|].
    destruct (IH Hin) as [H|(st0 & H0 & Hs & E)]; [left; now right|].
    right. exists st0. split; [now right | split; assumption].
Qed.

(** With distinct [data-step] values, the mutation reaches every step
    that the selector matches. *)
Lemma update_step_all n f l st' :
  NoDup (map data_step l) ->
  In st' (update_step n f l) ->
  (selects n st' = false /\ In st' l) \/
  (exists st, In st l /\ selects n st = true /\ st' = f st).
Proof.
  induction l as [|st rest IH]; cbn [update_step map]; [intros _ []|].
  intros Hnd. apply NoDup_cons in Hnd as [Hst Hnd].
  destruct (selects n st) eqn:Hn.
  - intros [<-|Hin].
    + right. exists st. split; [now left | split; [exact Hn | reflexivity]].
    + left. split; [|now right].
      destruct (selects n st') eqn:Hn'; [|reflexivity].
      exfalso. apply Hst. apply list_elem_of_In, in_map_iff.
      exists st'. split; [|exact Hin].
      unfold selects in Hn, Hn'. apply String.eqb_eq in Hn, Hn'. congruence.
  - intros [<-|Hin]; [left; split; [exact Hn | now left]|].
    destruct (IH Hnd Hin) as [[H1 H2]|(st0 & H0 & Hs & E)].
    + left. split; [exact H1 | now right].
    + right. exists st0. split; [now right | split; assumption].
Qed.

Lemma map_data_step_update n f l :
  (forall st, data_step (f st) = data_step st) ->
  map data_step (update_step n f l) = map data_step l.
Proof.
  intros Hf. induction l as [|st rest IH]; cbn [update_step map];
    [reflexivity|].
  destruct (selects n st); cbn [map]; [now rewrite Hf | now rewrite IH].
Qed.

(** X10. The form handler listens to the first next button of the form and
    the main script to every next button, so one click on that button runs
    [nextStep] twice. When the page has no step two beyond the current
    one, as on the two-step form, the second run changes nothing: the
    click advances by one step at most. *)
Theorem second_nextStep_changes_nothing (a : t) :
  querySelector (currentStep a + 2) (steps a) = None ->
  nextStep (nextStep a) = nextStep a.
Proof.
  intros Hnone.
  assert (forall st, data_step (validate_fields st) = data_step st) as Hv
    by reflexivity.
  assert (forall b st, data_step (set_active b st) = data_step st) as Hs
    by reflexivity.
  destruct (querySelector (currentStep a) (steps a)) as [cur|] eqn:Hcur.
  2: { assert (nextStep a = a) as E
         by (unfold nextStep; now rewrite Hcur).
       now rewrite !E. }
  destruct (querySelector (currentStep a + 1) (steps a)) as [nxt|] eqn:Hnxt.
  2: { assert (nextStep a = a) as E
         by (unfold nextStep; now rewrite Hcur, Hnxt).
       now rewrite !E. }
  destruct (forallb (fun fd => negb (blank fd)) (required cur)) eqn:Hvalid.
  - assert (nextStep a
            = updateProgressBar
                {| currentStep := currentStep a + 1;
                   steps := update_step (currentStep a + 1) (set_active true)
                              (update_step (currentStep a) (set_active false)
                                 (update_step (currentStep a) validate_fields
                                    (steps a)));
                   console := console a |}) as E.
    { unfold nextStep, validateStep. now rewrite Hcur, Hnxt, Hvalid. }
    rewrite E. unfold nextStep at 1. unfold updateProgressBar.
    cbn [currentStep steps console].
    rewrite !querySelector_update_step by (apply Hs || apply Hv).
    replace (currentStep a + 1 + 1)%Z with (currentStep a + 2)%Z by lia.
    destruct (decide (currentStep a + 1 = currentStep a + 1)%Z); [|lia].
    destruct (decide (currentStep a + 1 = currentStep a)%Z); [lia|].
    destruct (decide (currentStep a + 2 = currentStep a + 1)%Z); [lia|].
    destruct (decide (currentStep a + 2 = currentStep a)%Z); [lia|].
    rewrite Hnxt, Hnone. reflexivity.
  - assert (nextStep a
            = {| currentStep := currentStep a;
                 steps := update_step (currentStep a) validate_fields
                            (steps a);
                 console := console a |}) as E.
    { unfold nextStep, validateStep. now rewrite Hcur, Hnxt, Hvalid. }
    rewrite E. unfold nextStep, validateStep.
    cbn [currentStep steps console].
    rewrite !querySelector_update_step by apply Hv.
    destruct (decide (currentStep a = currentStep a)); [|lia].
    destruct (decide (currentStep a + 1 = currentStep a)%Z); [lia|].
    rewrite Hcur, Hnxt. cbn [option_map validate_fields required].
    rewrite forallb_validate, Hvalid.
    f_equal. rewrite update_step_twice by apply Hv.
    apply update_step_ext, validate_fields_idem.
Qed.

Lemma second_nextStep_changes_nothing_witness :
  nextStep (nextStep (lead_form [ {| blank := false;
                                     border_danger := true |} ]))
  = nextStep (lead_form [ {| blank := false; border_danger := true |} ]).
Proof.
  apply (second_nextStep_changes_nothing
           (lead_form [ {| blank := false; border_danger := true |} ])).
  reflexivity.
Defined.

(** On a form with a third step whose second step has no required field,
    the two runs of one click carry the visitor from the first step to
    the third. *)
Example click_skips_a_step :
  let page := {| currentStep := 1;
                 steps := [ {| data_step := "1"; active := true;
                               required := [] |};
                            {| data_step := "2"; active := false;
                               required := [] |};
                            {| data_step := "3"; active := false;
                               required := [] |} ];
                 console := [] |} in
  currentStep (nextStep (nextStep page)) = 3%Z /\
  map active (steps (nextStep (nextStep page))) = [false; false; true].
Proof. split; reflexivity. Qed.

(** X11. A blank required field holds the visitor on the step: with the
    current and the next step on the page, [nextStep] leaves the counter,
    the console and the [active] class of every step as they are, and
    marks the required fields of the current step, the blank ones with
    [border-danger] and no other. *)
Theorem blank_field_blocks_nextStep (a : t) (cur nxt : form_step)
    (fd : field) :
  querySelector (currentStep a) (steps a) = Some cur ->
  querySelector (currentStep a + 1) (steps a) = Some nxt ->
  In fd (required cur) ->
  blank fd = true ->
  currentStep (nextStep a) = currentStep a /\
  console (nextStep a) = console a /\
  map active (steps (nextStep a)) = map active (steps a) /\
  map data_step (steps (nextStep a)) = map data_step (steps a) /\
  querySelector (currentStep a) (steps (nextStep a))
  = Some (validate_fields cur).
Proof.
  intros Hcur Hnxt Hin Hblank.
  unfold nextStep, validateStep. rewrite Hcur, Hnxt.
  assert (forallb (fun fd => negb (blank fd)) (required cur) = false) as ->.
  { apply not_true_is_false. intros H.
    rewrite forallb_forall in H. specialize (H fd Hin).
    rewrite Hblank in H. discriminate H. }
  cbn [currentStep steps console].
  split; [reflexivity|]. split; [reflexivity|].
  split; [|split].
  - generalize (steps a) as l. intros l.
    induction l as [|st rest IH]; cbn [update_step map]; [reflexivity|].
    destruct (selects (currentStep a) st); cbn [map];
      [reflexivity | now rewrite IH].
  - now apply map_data_step_update.
  - rewrite querySelector_update_step by reflexivity.
    destruct (decide (currentStep a = currentStep a)); [|lia].
    now rewrite Hcur.
Qed.

Lemma blank_field_blocks_nextStep_witness :
  currentStep (nextStep (lead_form [ {| blank := false;
                                        border_danger := true |};
                                     {| blank := true;
                                        border_danger := false |} ]))
  = 1%Z /\
  console (nextStep (lead_form [ {| blank := false;
                                    border_danger := true |};
                                 {| blank := true;
                                    border_danger := false |} ]))
  = [] /\
  map active (steps (nextStep (lead_form [ {| blank := false;
                                              border_danger := true |};
                                           {| blank := true;
                                              border_danger := false |} ])))
  = [true; false] /\
  map data_step
      (steps (nextStep (lead_form [ {| blank := false;
                                       border_danger := true |};
                                    {| blank := true;
                                       border_danger := false |} ])))
  = ["1"; "2"] /\
  querySelector 1
    (steps (nextStep (lead_form [ {| blank := false;
                                     border_danger := true |};
                                  {| blank := true;
                                     border_danger := false |} ])))
  = Some {| data_step := "1"; active := true;
            required := [ {| blank := false; border_danger := false |};
                          {| blank := true; border_danger := true |} ] |}.
Proof.
  apply (blank_field_blocks_nextStep
           (lead_form [ {| blank := false; border_danger := true |};
                        {| blank := true; border_danger := false |} ])
           {| data_step := "1"; active := true;
              required := [ {| blank := false; border_danger := true |};
                            {| blank := true; border_danger := false |} ] |}
           {| data_step := "2"; active := false;
              required := [ {| blank := true; border_danger := false |} ] |}
           {| blank := true; border_danger := false |}).
  - reflexivity.
  - reflexivity.
  - right. left. reflexivity.
  - reflexivity.
Defined.

Lemma shows_current_move (a : t) (n : Z) (l : list form_step) :
  NoDup (map data_step l) ->
  n <> currentStep a ->
  (forall st, In st l -> active st = selects (currentStep a) st) ->
  forall st,
    In st (update_step n (set_active true)
             (update_step (currentStep a) (set_active false) l)) ->
    active st = selects n st.
Proof.
  intros Hnd Hne Hshow st Hin.
  assert (NoDup (map data_step
                   (update_step (currentStep a) (set_active false) l)))
    as Hnd' by (now rewrite map_data_step_update).
  destruct (update_step_all _ _ _ _ Hnd' Hin) as [[Hn H1]|(st1 & H1 & Hs & ->)].
  - rewrite Hn.
    destruct (update_step_all _ _ _ _ Hnd H1)
      as [[Hc H2]|(st2 & H2 & Hs2 & ->)].
    + now rewrite (Hshow st H2).
    + reflexivity.
  - change (selects n (set_active true st1)) with (selects n st1).
    now rewrite Hs.
Qed.

(** X12. The step shown is the step the counter names, before and after:
    on a page whose steps have distinct [data-step] values, if exactly the
    step of the counter is [active], the same holds after [nextStep] and
    after [prevStep], whether they move or not. *)
Theorem navigation_shows_current_step (a : t) :
  NoDup (map data_step (steps a)) ->
  shows_current a ->
  shows_current (nextStep a) /\ shows_current (prevStep a).
Proof.
  intros Hnd Hshow. split.
  - unfold nextStep.
    destruct (querySelector (currentStep a) (steps a)) as [cur|] eqn:Hcur;
      [|exact Hshow].
    destruct (querySelector (currentStep a + 1) (steps a)) as [nxt|];
      [|exact Hshow].
    unfold validateStep. rewrite Hcur.
    assert (forall st,
              In st (update_step (currentStep a) validate_fields (steps a)) ->
              active st = selects (currentStep a) st) as Hshow'.
    { intros st Hin.
      destruct (In_update_step _ _ _ _ Hin) as [H|(st0 & H0 & _ & ->)].
      - now apply Hshow.
      - change (active st0 = selects (currentStep a) st0). now apply Hshow. }
    destruct (forallb _ _).
    + unfold shows_current, updateProgressBar.
      cbn [currentStep steps console].
      apply (shows_current_move a (currentStep a + 1)); [|lia|exact Hshow'].
      now rewrite map_data_step_update.
    + exact Hshow'.
  - unfold prevStep.
    destruct (querySelector (currentStep a) (steps a)); [|exact Hshow].
    destruct (querySelector (currentStep a - 1) (steps a)); [|exact Hshow].
    unfold shows_current, updateProgressBar.
    cbn [currentStep steps console].
    apply (shows_current_move a (currentStep a - 1)); [exact Hnd|lia|].
    exact Hshow.
Qed.

Lemma navigation_shows_current_step_witness :
  shows_current (nextStep (lead_form [])) /\
  shows_current (prevStep (lead_form [])).
Proof.
  apply (navigation_shows_current_step (lead_form [])).
  - apply (bool_decide_unpack _). vm_compute. exact I.
  - intros st [<-|[<-|[]]]; reflexivity.
Defined.

(** With two steps of the same [data-step] the lookup reaches the first
    only: the second stays shown after the visitor has moved on. *)
Example duplicate_step_stays_active :
  let page := {| currentStep := 1;
                 steps := [ {| data_step := "1"; active := true;
                               required := [] |};
                            {| data_step := "1"; active := true;
                               required := [] |};
                            {| data_step := "2"; active := false;
                               required := [] |} ];
                 console := [] |} in
  currentStep (nextStep page) = 2%Z /\
  map active (steps (nextStep page)) = [false; true; true].
Proof. split; reflexivity. Qed.

End FormSteps.
